(** * add_knowledge_remaining.py: the knowledge-section injector

    A shallow embedding of [src/add_knowledge_remaining.py] and of the
    line formatter described in the specification, with the properties
    of both.

    Python values are modelled as follows.
    - [str] is a list of Unicode code points ([N]); a string literal of
      the source is written as the same literal here and decoded from
      its UTF-8 bytes by [u].
    - The file system, on a POSIX system, is two finite maps keyed by
      path strings: [files] holds the readable and writable text files
      with their decoded text, [blocked] holds every other path at which
      something exists (a directory, a file that is not valid UTF-8, a
      file that may not be read) with the exception that reading it
      raises.  A path string stands for one file: [.], [..], repeated
      slashes and links are not resolved, so a statement that depends
      on which names reach the same file is made for plain names,
      which need no resolving.
    - Standard output is the list of printed messages.
    - An exception that leaves a function is the [Raise] outcome; the
      batch keeps the world it has reached beside it. *)

From Stdlib Require Import Strings.Ascii Strings.String Strings.Byte NArith DecimalString.
From stdpp Require Import gmap list.

Open Scope N_scope.
Open Scope nat_scope.

(** ** Python strings *)

Abbreviation str := (list N).

Module Py.

(** UTF-8 decoding of a source literal into code points: [need] counts
    the continuation bytes still expected and [acc] holds the bits read
    so far. *)
Fixpoint utf8_decode (need : nat) (acc : N) (bs : list byte) : str :=
  match bs with
  | [] => []
  | b :: bs' =>
      let n := Byte.to_N b in
      match need with
      | O =>
          if (n <? 128)%N then n :: utf8_decode 0 0%N bs'
          else if (n <? 224)%N then utf8_decode 1 (N.land n 31) bs'
          else if (n <? 240)%N then utf8_decode 2 (N.land n 15) bs'
          else utf8_decode 3 (N.land n 7) bs'
      | S k =>
          let acc' := N.lor (N.shiftl acc 6) (N.land n 63) in
          match k with
          | O => acc' :: utf8_decode 0 0%N bs'
          | S _ => utf8_decode k acc' bs'
          end
      end
  end.

Definition u (s : string) : str := utf8_decode 0 0%N (list_byte_of_string s).
Arguments u : simpl never.

Definition chr (a : ascii) : N := N_of_ascii a.

Definition LF : N := 10%N.
Definition CR : N := 13%N.

(** [str.startswith] and the [in] operator on strings. *)
Fixpoint startswith (s prefix : str) {struct prefix} : bool :=
  match prefix, s with
  | [], _ => true
  | _ :: _, [] => false
  | a :: prefix', b :: s' => (a =? b)%N && startswith s' prefix'
  end.

Fixpoint contains (sub s : str) : bool :=
  startswith s sub ||
  match s with
  | [] => false
  | _ :: s' => contains sub s'
  end.

(** [s.replace(old, new)] for a non-empty [old]: occurrences are
    replaced from the left and do not overlap; [skip] counts the
    characters of the occurrence just replaced that remain to be
    passed over. *)
Fixpoint replace_from (skip : nat) (old new s : str) : str :=
  match s with
  | [] => []
  | c :: s' =>
      match skip with
      | S k => replace_from k old new s'
      | O =>
          if startswith s old
          then new ++ replace_from (pred (List.length old)) old new s'
          else c :: replace_from 0 old new s'
      end
  end.

Definition replace (s old new : str) : str := replace_from 0 old new s.

(** [str(n)] for a non-negative integer. *)
Definition str_of_nat (n : nat) : str :=
  u (NilEmpty.string_of_uint (Nat.to_uint n)).

(** [posixpath.join(a, b)]. *)
Definition os_path_join (a b : str) : str :=
  if startswith b (u "/") then b
  else match last a with
       | None => b
       | Some c => if (c =? chr "/")%N then a ++ b else a ++ u "/" ++ b
       end.

(** Text-mode reading translates every line ending to a line feed
    (universal newlines): a carriage return becomes a line feed, and a
    line feed directly after a carriage return is dropped. *)
Fixpoint universal_newlines (s : str) : str :=
  match s with
  | [] => []
  | c :: s' =>
      if (c =? CR)%N then
        LF :: match s' with
              | d :: s'' => if (d =? LF)%N then universal_newlines s''
                            else universal_newlines s'
              | [] => []
              end
      else c :: universal_newlines s'
  end.

Inductive exn :=
  | FileNotFoundError
  | IsADirectoryError
  | UnicodeDecodeError
  | PermissionError.

#[global] Instance exn_eq_dec : EqDecision exn.
Proof. solve_decision. Defined.

Inductive outcome (A : Type) :=
  | Return (a : A)
  | Raise (e : exn).
Arguments Return {A} a.
Arguments Raise {A} e.

(** The part of the world the script touches. *)
Record world := World {
  files : gmap (list N) (list N);
  blocked : gmap (list N) exn;
  stdout : list (list N)
}.

Definition print (msg : str) (w : world) : world :=
  {| files := files w; blocked := blocked w; stdout := stdout w ++ [msg] |}.

(** [os.path.exists]: true of a text file and of anything else that
    sits at the path, a directory included. *)
Definition os_path_exists (w : world) (path : str) : bool :=
  bool_decide (is_Some (files w !! path))
  || bool_decide (is_Some (blocked w !! path)).

(** [open(path, 'r', encoding='utf-8').read()]. *)
Definition read_text (w : world) (path : str) : outcome str :=
  match files w !! path with
  | Some raw => Return (universal_newlines raw)
  | None =>
      match blocked w !! path with
      | Some e => Raise e
      | None => Raise FileNotFoundError
      end
  end.

(** [open(path, 'w', encoding='utf-8').write(text)], on a POSIX
    system, where a line feed is written as it is. *)
Definition write_text (path text : str) (w : world) : world :=
  {| files := <[path := text]> (files w);
     blocked := blocked w;
     stdout := stdout w |}.

End Py.

(** ** The fragment of [re] the script uses

    A pattern is a sequence of atoms, each a character set taken once or
    one-or-more times (greedy).  [match_here] is the backtracking
    matcher: a quantified atom first tries to take one more character
    and only then hands over to the rest of the pattern. *)

Module Re.

Inductive cset :=
  | Chr (c : N)              (* a literal character *)
  | NoneOf (cs : list N).    (* a negated class [^...] *)

Inductive atom :=
  | One (k : cset)
  | Plus (k : cset).

Definition accepts (k : cset) (c : N) : bool :=
  match k with
  | Chr a => (a =? c)%N
  | NoneOf cs => negb (existsb (N.eqb c) cs)
  end.

(** The number of characters the pattern consumes at the head of [s]. *)
Fixpoint match_here (p : list atom) : str -> option nat :=
  match p with
  | [] => fun _ => Some 0
  | One k :: p' => fun s =>
      match s with
      | c :: s' => if accepts k c then S <$> match_here p' s' else None
      | [] => None
      end
  | Plus k :: p' =>
      fix more (s : str) : option nat :=
        match s with
        | c :: s' =>
            if accepts k c then
              match more s' with
              | Some n => Some (S n)
              | None => S <$> match_here p' s'
              end
            else None
        | [] => None
        end
  end.

(** [re.search]: the leftmost position at which the pattern matches,
    as the pair of [match.start()] and [match.end()]. *)
Fixpoint search_from (i : nat) (p : list atom) (s : str) : option (nat * nat) :=
  match match_here p s with
  | Some n => Some (i, i + n)
  | None =>
      match s with
      | [] => None
      | _ :: s' => search_from (S i) p s'
      end
  end.

Definition search (p : list atom) (s : str) : option (nat * nat) :=
  search_from 0 p s.

Definition match_end (m : nat * nat) : nat := snd m.

End Re.

Import Py.

(** ** The injector *)

Definition REMAINING_AGENTS : list str := [
  u "vibe-elizaos.md";
  u "vibe-ai-llm.md";
  u "vibe-mcp.md";
  u "vibe-sentry.md";
  u "vibe-langfuse.md";
  u "vibe-roi.md";
  u "vibe-updater.md";
  u "vibe-knowledge-keeper.md";
  u "vibe-diagnostics.md";
  u "vibe-learn.md";
  u "vibe-queen.md";
  u "vibe-cicd.md"
].

(** The heading whose presence marks a file as already processed. *)
Definition marker : str := u "### 🆔 Знание Других Агентов".

(** [r'(## [^#\n]+[^#]\n)']; the group spans the whole pattern and does
    not change what [match.end()] returns. *)
Definition pattern : list Re.atom := [
  Re.One (Re.Chr (chr "#"));
  Re.One (Re.Chr (chr "#"));
  Re.One (Re.Chr (chr " "));
  Re.Plus (Re.NoneOf [chr "#"; LF]);
  Re.One (Re.NoneOf [chr "#"]);
  Re.One (Re.Chr LF)
].

(** The f-string of the source: [{{] and [}}] are its escapes for
    braces, and [{agent_name}] is replaced at each of its three
    occurrences. *)
Definition knowledge_section (agent_name : str) : str :=
  u "
### 🆔 Знание Других Агентов

**Знает и Взаимодействует С:**
- `vibe-lead (👑) - получаю от него координацию`
- `vibe-spec (📋) - могу использовать его спецификации`
- `vibe-tasker (✅) - получаю планирование от него`
- `vibe-coder (💻) - взаимодействую с его кодом`
- `vibe-tester (🧪) - могу использовать его тесты`
- `vibe-critic (🎭) - получаю feedback по работе`

**Получает Задачи От:**
- `vibe-lead (👑) - получаю основные задачи`
- `vibe-queen (🐝) - могу получить задачи от главного координатора`
- Другие агенты могут взаимодействовать со мной

**Пример Взаимодействия:**
```typescript
// Запуск с resume для продолжения контекста
Task({
  subagent_type: '" ++ agent_name ++
  u "',
  description: 'задача для " ++ agent_name ++
  u "',
  prompt: 'Детали задачи...',
  resume: 'previous-agent-id'  // Продолжает работу предыдущего агента
});

// Получение agentId для последующего использования
const agentId = await Task({
  subagent_type: '" ++ agent_name ++
  u "',
  description: 'Начать работу'
});
```
".

Definition add_knowledge_section (file_path agent_name : str) (w : world)
  : outcome (bool * world) :=
  match read_text w file_path with
  | Raise e => Raise e
  | Return content =>
      if contains marker content then
        Return (false,
                print (u "⚠️ " ++ file_path ++ u ": секция уже существует") w)
      else
        match Re.search pattern content with
        | None =>
            Return (false,
                    print (u "❌ " ++ file_path ++ u ": не найдено место для вставки") w)
        | Some m =>
            let insert_pos := Re.match_end m in
            let new_content :=
              take insert_pos content ++ knowledge_section agent_name
                ++ drop insert_pos content in
            Return (true,
                    print (u "✅ " ++ file_path ++ u ": добавлена секция знания")
                      (write_text file_path new_content w))
        end
  end.

Definition agents_dir : str := u ".claude/agents/".

(** The [for] loop of [main], over the list it is given.  A call that
    raises has printed and written nothing, and nothing catches the
    exception: the loop ends there, in the world it has reached. *)
Fixpoint main_loop (names : list str) (updated_count : nat) (w : world)
  : outcome nat * world :=
  match names with
  | [] => (Return updated_count, w)
  | filename :: rest =>
      let file_path := os_path_join agents_dir filename in
      if os_path_exists w file_path then
        let agent_name := replace filename (u ".md") (u "") in
        match add_knowledge_section file_path agent_name w with
        | Raise e => (Raise e, w)
        | Return (true, w') => main_loop rest (S updated_count) w'
        | Return (false, w') => main_loop rest updated_count w'
        end
      else
        main_loop rest updated_count
          (print (u "⚠️ Файл не найден: " ++ file_path) w)
  end.

(** [main] with the list of names as a parameter; the count it prints
    is returned as well, so that statements can speak of it. *)
Definition main_on (names : list str) (w : world) : outcome nat * world :=
  match main_loop names 0 w with
  | (Raise e, w') => (Raise e, w')
  | (Return updated_count, w') =>
      (Return updated_count,
       print ([LF] ++ u "🎉 Обновлено агентов: " ++ str_of_nat updated_count
                ++ u "/" ++ str_of_nat (length names)) w')
  end.

Definition main (w : world) : outcome nat * world :=
  main_on REMAINING_AGENTS w.

(** ** Auxiliary notions for the statements *)

(** The three messages of [add_knowledge_section], and the text it
    writes back. *)
Definition msg_present (file_path : str) : str :=
  u "⚠️ " ++ file_path ++ u ": секция уже существует".
Definition msg_no_anchor (file_path : str) : str :=
  u "❌ " ++ file_path ++ u ": не найдено место для вставки".
Definition msg_inserted (file_path : str) : str :=
  u "✅ " ++ file_path ++ u ": добавлена секция знания".

Definition spliced (content : str) (insert_pos : nat) (agent_name : str) : str :=
  take insert_pos content ++ knowledge_section agent_name
    ++ drop insert_pos content.

(** A character of the greedy run [[^#\n]+]. *)
Definition title_char (c : N) : Prop := c <> chr "#" /\ c <> LF.

(** What follows a heading's title decides the match: a blank line is
    taken into it; otherwise the title needs two characters, the
    second of which the class [[^#]] consumes. *)
Definition after_title (title rest : str) : option nat :=
  match rest with
  | c :: rest' =>
      if (c =? LF)%N then
        match rest' with
        | d :: _ =>
            if (d =? LF)%N then
              match title with [] => None | _ => Some (length title + 2) end
            else if bool_decide (2 <= length title)
                 then Some (length title + 1) else None
        | [] => if bool_decide (2 <= length title)
                then Some (length title + 1) else None
        end
      else None
  | [] => None
  end.

Definition run_ends (rest : str) : Prop :=
  match rest with
  | [] => True
  | c :: _ => ~ title_char c
  end.



(** A file the injector has nothing left to do with: it is absent, or
    it holds the marker, or the scan finds no anchor in it. *)
Definition settled (w : world) (file_path : str) : Prop :=
  forall content,
    read_text w file_path = Return content ->
    contains marker content = true \/ Re.search pattern content = None.


(** ** Anchor selection as the specification words it

    The first line that is a level-2 ATX heading: [##], whitespace and
    a non-empty title.  Kept apart from the code's [pattern], to be
    compared with it. *)

Module Spec.

Definition is_space (c : N) : bool :=
  existsb (N.eqb c) [9; 10; 11; 12; 13; 32]%N.

(** [s.split('\n')]. *)
Fixpoint split_lines (s : str) : list str :=
  match s with
  | [] => [[]]
  | c :: s' =>
      if (c =? LF)%N then [] :: split_lines s'
      else match split_lines s' with
           | l :: ls => (c :: l) :: ls
           | [] => [[c]]
           end
  end.

Definition level2_heading (line : str) : bool :=
  match line with
  | a :: b :: c :: title =>
      (a =? chr "#")%N && (b =? chr "#")%N && is_space c
        && negb (forallb is_space title)
  | _ => false
  end.

(** The offset just after the trailing line feed of the first level-2
    heading among [ls], the first of which starts at offset [off]. *)
Fixpoint anchor_offset (off : nat) (ls : list str) : option nat :=
  match ls with
  | [] => None
  | l :: rest =>
      if level2_heading l then Some (off + length l + 1)
      else anchor_offset (off + length l + 1) rest
  end.

Definition insertion_offset (content : str) : option nat :=
  anchor_offset 0 (split_lines content).

End Spec.

(** ** The line formatter *)

Module LineFormatter.

Import Spec.

Definition SP : N := 32%N.

(** Modelled from the spec: the formatter's source file is not among
    the sources, so its helpers follow section 4.1: stripping of
    leading and of trailing whitespace. *)
Fixpoint lstrip (s : str) : str :=
  match s with
  | [] => []
  | c :: s' => if is_space c then lstrip s' else s
  end.

Fixpoint rstrip (s : str) : str :=
  match s with
  | [] => []
  | c :: s' =>
      match rstrip s' with
      | [] => if is_space c then [] else [c]
      | r => c :: r
      end
  end.

Definition trim (s : str) : str := lstrip (rstrip s).

(** Modelled from the spec: a line is blank iff its trimmed form has
    zero length (step 1). *)
Definition is_blank (line : str) : bool :=
  match trim line with
  | [] => true
  | _ :: _ => false
  end.

(** Modelled from the spec: the heading pattern of step 2a, one to six
    [#] at the start of the line followed by a whitespace character;
    the result is the heading level. *)
Fixpoint heading_scan (n : nat) (s : str) : option nat :=
  match s with
  | [] => None
  | c :: s' =>
      if (c =? chr "#")%N then heading_scan (S n) s'
      else if is_space c && (1 <=? n) && (n <=? 6) then Some n else None
  end.

Definition heading_level (line : str) : option nat := heading_scan 0 line.

Definition top_heading (line : str) : bool :=
  match heading_level line with
  | Some n => n <=? 3
  | None => false
  end.

(** Modelled from the spec: step 2a, every run of whitespace becomes a
    single space; [in_ws] tells that the run has been replaced
    already. *)
Fixpoint collapse_all (in_ws : bool) (s : str) : str :=
  match s with
  | [] => []
  | c :: s' =>
      if is_space c then
        if in_ws then collapse_all true s' else SP :: collapse_all true s'
      else c :: collapse_all false s'
  end.

(** Modelled from the spec: step 2b, every run of two or more
    whitespace characters becomes a single space; a whitespace
    character on its own stays. *)
Fixpoint collapse_runs (in_run : bool) (s : str) : str :=
  match s with
  | [] => []
  | c :: s' =>
      if is_space c then
        if in_run then collapse_runs true s'
        else match s' with
             | d :: _ =>
                 if is_space d then SP :: collapse_runs true s'
                 else c :: collapse_runs false s'
             | [] => [c]
             end
      else c :: collapse_runs false s'
  end.

(** Modelled from the spec: steps 2a and 2b on one line. *)
Definition format_line (line : str) : str :=
  collapse_runs false
    (match heading_level line with
     | Some _ => trim (collapse_all false line)
     | None => line
     end).

(** Modelled from the spec: steps 2c and 2d, a blank line goes before a
    heading of level 1 to 3 when the line emitted before it is not
    blank; at the first line there is none, which counts as blank. *)
Fixpoint emit_lines (prev_blank : bool) (ls : list str) : list str :=
  match ls with
  | [] => []
  | l :: rest =>
      let line := format_line l in
      if top_heading line && negb prev_blank
      then [] :: line :: emit_lines (is_blank line) rest
      else line :: emit_lines (is_blank line) rest
  end.

(** Modelled from the spec: step 3, a blank line is dropped when the
    line kept before it is blank. *)
Fixpoint collapse_blank (prev_blank : bool) (ls : list str) : list str :=
  match ls with
  | [] => []
  | l :: rest =>
      if is_blank l then
        if prev_blank then collapse_blank true rest
        else l :: collapse_blank true rest
      else l :: collapse_blank false rest
  end.

(** Modelled from the spec: step 4, the lines joined by line feeds. *)
Fixpoint join_lines (ls : list str) : str :=
  match ls with
  | [] => []
  | [l] => l
  | l :: rest => l ++ LF :: join_lines rest
  end.

(** Modelled from the spec: [format] of section 4.1, whose source file
    is not among the sources. *)
Definition format (text : str) : str :=
  join_lines (collapse_blank false (emit_lines true (split_lines text))).

(** Shapes of the formatter's output, used to state what each step
    establishes. *)

(** No two whitespace characters side by side. *)
Fixpoint single_gaps (s : str) : Prop :=
  match s with
  | c :: (d :: _) as s' => ~ (is_space c = true /\ is_space d = true) /\ single_gaps s'
  | _ => True
  end.

(** Every whitespace character is a space. *)
Definition only_spaces (s : str) : Prop :=
  Forall (fun c => is_space c = true -> c = SP) s.

Definition starts_clean (s : str) : Prop :=
  match s with
  | c :: _ => is_space c = false
  | [] => True
  end.

(** Every line is as step 2 leaves it, and every heading of level 1 to
    3 comes after a blank line or first. *)
Fixpoint spaced_headings (prev_blank : bool) (ls : list str) : Prop :=
  match ls with
  | [] => True
  | l :: rest =>
      format_line l = l /\ (top_heading l = true -> prev_blank = true) /\
      spaced_headings (is_blank l) rest
  end.

(** No blank line after a blank line. *)
Fixpoint no_blank_runs (prev_blank : bool) (ls : list str) : Prop :=
  match ls with
  | [] => True
  | l :: rest =>
      ~ (is_blank l = true /\ prev_blank = true) /\
      no_blank_runs (is_blank l) rest
  end.

Definition free_of_LF (ls : list str) : Prop :=
  Forall (Forall (fun c => c <> LF)) ls.

End LineFormatter.

(** ** Sample documents *)

Definition world_of (file_path content : str) : world :=
  {| files := {[ file_path := content ]}; blocked := ∅; stdout := [] |}.

Definition doc_scenario : str := u "# Title
## Section
Body text
".

Definition doc_blank_after : str := u "## Section

Body text
".

Definition doc_title_only : str := u "# Title
intro
".

Definition doc_short_title : str := u "## A
body
".

Definition doc_level3 : str := u "### Sub
text
## Main
body
".

Definition doc_midline : str := u "Intro ## not a heading
## Real
body
".

Definition doc_level3_only : str := u "# Title
### Sub heading
text
".


(** The agents directory with one file in it. *)
Definition world_directory : world :=
  {| files := {[ u ".claude/agents/vibe-mcp.md" := doc_scenario ]};
     blocked := {[ u ".claude/agents/" := IsADirectoryError ]};
     stdout := [] |}.

(** Three of the listed files: one already has the section, one has no
    anchor, one waits for the section. *)
Definition world_three_files : world :=
  {| files := {[ u ".claude/agents/vibe-mcp.md" := knowledge_section (u "vibe-mcp");
                 u ".claude/agents/vibe-roi.md" := doc_title_only;
                 u ".claude/agents/vibe-queen.md" := doc_scenario ]};
     blocked := {[ u ".claude/agents/" := IsADirectoryError ]};
     stdout := [] |}.

(** ** Strings: prefixes, occurrences and line endings *)

Section StringFacts.

Implicit Types s sub a b : str.

Lemma startswith_app : forall sub r, startswith (sub ++ r) sub = true.
Proof.
  induction sub as [|c sub IH]; intros r; simpl; [done|].
  by rewrite N.eqb_refl, IH.
Qed.

Lemma startswith_inv : forall sub s,
  startswith s sub = true -> exists r, s = sub ++ r.
Proof.
  induction sub as [|c sub IH]; intros [|d s] H; simpl in *; try done.
  - by exists [].
  - by exists (d :: s).
  - apply andb_true_iff in H as [Hc Hs]. apply N.eqb_eq in Hc as ->.
    destruct (IH _ Hs) as [r ->]. by exists r.
Qed.

Lemma contains_unfold sub s :
  contains sub s =
  startswith s sub || match s with [] => false | _ :: s' => contains sub s' end.
Proof. by destruct s. Qed.

Lemma contains_intro : forall a sub b, contains sub (a ++ sub ++ b) = true.
Proof.
  induction a as [|c a IH]; intros sub b.
  - by rewrite app_nil_l, contains_unfold, startswith_app.
  - simpl. rewrite IH. apply orb_true_r.
Qed.

Lemma contains_inv : forall s sub,
  contains sub s = true -> exists a b, s = a ++ sub ++ b.
Proof.
  induction s as [|c s IH]; intros sub H; simpl in H.
  - rewrite orb_false_r in H. apply startswith_inv in H as [r ->].
    by exists [], r.
  - apply orb_true_iff in H as [H|H].
    + apply startswith_inv in H as [r ->]. by exists [], r.
    + destruct (IH _ H) as (a & b & ->). by exists (c :: a), b.
Qed.

(** The [in] operator is the literal-substring test. *)
Lemma contains_spec s sub :
  contains sub s = true <-> exists a b, s = a ++ sub ++ b.
Proof.
  split; [apply contains_inv|]. intros (a & b & ->). apply contains_intro.
Qed.

Lemma contains_app_middle a s b sub :
  contains sub s = true -> contains sub (a ++ s ++ b) = true.
Proof.
  intros (x & y & ->)%contains_spec. apply contains_spec.
  exists (a ++ x), (y ++ b). by rewrite <- !app_assoc.
Qed.

(** A character that is no line ending separates what newline
    translation does on either side of it. *)
Lemma universal_newlines_cut : forall a c b,
  c <> CR -> c <> LF ->
  universal_newlines (a ++ c :: b) =
  universal_newlines a ++ c :: universal_newlines b.
Proof.
  intros a c b Hcr Hlf.
  induction a as [a IH] using (induction_ltof1 _ (@length N)).
  unfold ltof in IH. destruct a as [|x a].
  - simpl. by apply N.eqb_neq in Hcr as ->.
  - change ((x :: a) ++ c :: b) with (x :: (a ++ c :: b)).
    cbn [universal_newlines]. destruct (x =? CR)%N.
    + destruct a as [|y a].
      * simpl. apply N.eqb_neq in Hlf as ->.
        by apply N.eqb_neq in Hcr as ->.
      * cbn [app]. destruct (y =? LF)%N.
        -- rewrite (IH a) by (simpl; lia). done.
        -- rewrite <- (IH (y :: a)) by (simpl; lia). done.
    + rewrite (IH a) by (simpl; lia). done.
Qed.

Lemma universal_newlines_plain : forall s b,
  Forall (fun c => c <> CR) s ->
  universal_newlines (s ++ b) = s ++ universal_newlines b.
Proof.
  induction 1 as [|c s Hc _ IH]; [done|].
  simpl. apply N.eqb_neq in Hc as ->. by rewrite IH.
Qed.

(** An occurrence of text without line endings survives the
    translation. *)
Lemma universal_newlines_keeps a c sub b :
  c <> CR -> c <> LF -> Forall (fun d => d <> CR) sub ->
  contains (c :: sub) (universal_newlines (a ++ (c :: sub) ++ b)) = true.
Proof.
  intros Hcr Hlf Hsub. cbn [app].
  rewrite universal_newlines_cut, universal_newlines_plain by done.
  apply (contains_intro _ (c :: sub)).
Qed.

End StringFacts.

(** ** What the anchor pattern matches *)

Section AnchorPattern.

Implicit Types s title rest : str.

#[local] Arguments chr : simpl never.

Ltac eqb_cases :=
  repeat match goal with
         | |- context [(?a =? ?b)%N] => destruct (N.eqb_spec a b); subst
         end.

Lemma title_char_accepts c :
  Re.accepts (Re.NoneOf [chr "#"; LF]) c = true <-> title_char c.
Proof.
  unfold title_char. simpl. rewrite orb_false_r, negb_true_iff, orb_false_iff.
  rewrite !N.eqb_neq. done.
Qed.

Lemma match_plus_cons k p c s :
  Re.match_here (Re.Plus k :: p) (c :: s) =
  if Re.accepts k c then
    match Re.match_here (Re.Plus k :: p) s with
    | Some n => Some (S n)
    | None => S <$> Re.match_here p s
    end
  else None.
Proof. reflexivity. Qed.

Lemma match_one_cons k p c s :
  Re.match_here (Re.One k :: p) (c :: s) =
  if Re.accepts k c then S <$> Re.match_here p s else None.
Proof. reflexivity. Qed.

(** The last two atoms, [[^#]\n]. *)
Lemma match_last_two s :
  Re.match_here (drop 4 pattern) s =
  match s with
  | c :: d :: _ =>
      if negb (c =? chr "#")%N && (d =? LF)%N then Some 2 else None
  | _ => None
  end.
Proof.
  change (drop 4 pattern) with
    [Re.One (Re.NoneOf [chr "#"]); Re.One (Re.Chr LF)].
  destruct s as [|c [|d s]]; [done| |]; rewrite match_one_cons; cbn [Re.accepts existsb];
    rewrite orb_false_r.
  - by destruct (c =? chr "#")%N.
  - destruct (c =? chr "#")%N; [done|]. rewrite match_one_cons.
    cbn [Re.accepts negb andb]. rewrite (N.eqb_sym LF d).
    by destruct (d =? LF)%N.
Qed.

Lemma match_title_run : forall title rest,
  Forall title_char title -> run_ends rest ->
  Re.match_here (drop 3 pattern) (title ++ rest) = after_title title rest.
Proof.
  intros title rest Ht Hr.
  change (drop 3 pattern) with
    (Re.Plus (Re.NoneOf [chr "#"; LF]) :: drop 4 pattern).
  induction Ht as [|c title Hc Ht IH].
  - destruct rest as [|c rest]; [done|].
    rewrite app_nil_l, match_plus_cons.
    destruct (Re.accepts _ c) eqn:E.
    + apply title_char_accepts in E. by destruct Hr.
    + destruct rest as [|d rest]; cbn [after_title length]; eqb_cases; done.
  - change ((c :: title) ++ rest) with (c :: (title ++ rest)).
    rewrite match_plus_cons, IH.
    apply title_char_accepts in Hc as Hc'. rewrite Hc'. clear Hc' IH.
    rewrite match_last_two.
    destruct title as [|a [|b title]], rest as [|x [|d rest]];
      repeat match goal with
             | H : Forall _ (_ :: _) |- _ => apply Forall_cons in H as [? H]
             end;
      cbn [after_title length app]; eqb_cases; cbn [negb andb];
      repeat case_bool_decide;
      try done; try lia;
      try (exfalso; unfold run_ends, title_char in *; intuition congruence);
      try (cbn; do 2 f_equal; lia).
Qed.

Lemma title_char_dec c : {title_char c} + {~ title_char c}.
Proof.
  unfold title_char.
  destruct (N.eq_dec c (chr "#")), (N.eq_dec c LF); auto; right; tauto.
Qed.

(** Every text splits into its longest run of title characters and the
    rest. *)
Lemma title_split s :
  exists title rest,
    s = title ++ rest /\ Forall title_char title /\ run_ends rest.
Proof.
  induction s as [|c s (title & rest & -> & Ht & Hr)].
  - by exists [], [].
  - destruct (title_char_dec c) as [Hc|Hc].
    + exists (c :: title), rest. auto.
    + exists [], (c :: title ++ rest). auto.
Qed.

Lemma match_pattern_unfold s :
  Re.match_here pattern s =
  match s with
  | a :: b :: c :: s' =>
      if ((a =? chr "#") && (b =? chr "#") && (c =? chr " "))%N
      then (fun n => 3 + n) <$> Re.match_here (drop 3 pattern) s'
      else None
  | _ => None
  end.
Proof.
  unfold pattern. destruct s as [|a [|b [|c s]]];
    rewrite ?match_one_cons; cbn [Re.accepts]; try done.
  - by destruct (chr "#" =? a)%N.
  - by destruct (chr "#" =? a)%N, (chr "#" =? b)%N.
  - rewrite !(N.eqb_sym _ (chr "#")), (N.eqb_sym _ (chr " ")). cbn [drop].
    destruct (chr "#" =? a)%N, (chr "#" =? b)%N, (chr " " =? c)%N; try done.
    by destruct (Re.match_here _ s).
Qed.

Lemma after_title_inv title rest n :
  after_title title rest = Some n ->
  exists rest', rest = LF :: rest' /\ title <> [] /\
    ((exists rest'', rest' = LF :: rest'' /\ n = length title + 2) \/
     (head rest' <> Some LF /\ 2 <= length title /\ n = length title + 1)).
Proof.
  unfold after_title. intros H.
  destruct rest as [|c rest']; [done|]. destruct (N.eqb_spec c LF) as [->|]; [|done].
  exists rest'. split; [done|].
  destruct rest' as [|d rest''].
  - case_bool_decide; [|done]. injection H as <-.
    split; [intros ->; simpl in *; lia|]. right. done.
  - destruct (N.eqb_spec d LF) as [->|Hd].
    + destruct title; [done|]. injection H as <-. split; [done|]. left. eauto.
    + case_bool_decide; [|done]. injection H as <-.
      split; [intros ->; simpl in *; lia|]. right. split_and!; [|done..].
      simpl. congruence.
Qed.

(** The text matched at the head of [s]: ["## "], a non-empty title
    without [#] or line feed, the line feed, and the blank line after
    it when there is one. *)
Lemma match_pattern_inv s n :
  Re.match_here pattern s = Some n ->
  exists title rest,
    s = u "## " ++ title ++ LF :: rest /\
    title <> [] /\ Forall title_char title /\
    ((exists rest', rest = LF :: rest' /\ n = 3 + length title + 2) \/
     (head rest <> Some LF /\ 2 <= length title /\ n = 3 + length title + 1)).
Proof.
  rewrite match_pattern_unfold. destruct s as [|a [|b [|c s]]]; try done.
  destruct (N.eqb_spec a (chr "#")) as [->|]; [|done].
  destruct (N.eqb_spec b (chr "#")) as [->|]; [|done].
  destruct (N.eqb_spec c (chr " ")) as [->|]; [|done]. cbn [andb].
  destruct (title_split s) as (title & rest0 & -> & Ht & Hr).
  rewrite match_title_run by done.
  destruct (after_title title rest0) as [m|] eqn:E; [|done].
  intros [= <-]. apply after_title_inv in E as (rest & -> & Hne & Hcase).
  exists title, rest. split_and!; try done.
  destruct Hcase as [(r & -> & ->)|(? & ? & ->)]; [left|right]; eauto with lia.
Qed.



(** A heading whose title is a single character matches only when a
    blank line follows it. *)
Lemma match_pattern_short c rest :
  title_char c -> head rest <> Some LF ->
  Re.match_here pattern (u "## " ++ c :: LF :: rest) = None.
Proof.
  intros Hc Hrest. rewrite match_pattern_unfold.
  change (u "## ") with [chr "#"; chr "#"; chr " "]. cbn [app].
  rewrite !N.eqb_refl. cbn [andb].
  change (c :: LF :: rest) with ([c] ++ LF :: rest).
  rewrite (match_title_run [c] (LF :: rest));
    [|by constructor|unfold run_ends, title_char; tauto].
  unfold after_title. rewrite N.eqb_refl.
  destruct rest as [|d rest]; [done|].
  destruct (N.eqb_spec d LF) as [->|]; done.
Qed.

(** [re.search] returns the leftmost match. *)
Lemma search_from_inv p : forall s i st e,
  Re.search_from i p s = Some (st, e) ->
  exists before after n,
    s = before ++ after /\ st = i + length before /\ e = st + n /\
    Re.match_here p after = Some n /\
    forall j, j < length before -> Re.match_here p (drop j s) = None.
Proof.
  induction s as [|c s IH]; intros i st e H; cbn [Re.search_from] in H.
  - destruct (Re.match_here p []) as [n|] eqn:E; [|done].
    injection H as <- <-. exists [], [], n.
    split_and!; try done; simpl; lia.
  - destruct (Re.match_here p (c :: s)) as [n|] eqn:E.
    + injection H as <- <-. exists [], (c :: s), n.
      split_and!; try done; simpl; lia.
    + apply IH in H as (before & after & n & -> & -> & -> & Hm & Hfirst).
      exists (c :: before), after, n. split_and!; try done; simpl; try lia.
      intros [|j] Hj; [done|]. apply Hfirst. lia.
Qed.

Lemma search_from_None p : forall s i,
  Re.search_from i p s = None ->
  forall j, j <= length s -> Re.match_here p (drop j s) = None.
Proof.
  induction s as [|c s IH]; intros i H j Hj; cbn [Re.search_from] in H.
  - destruct (Re.match_here p []) eqn:E; [done|]. by rewrite drop_nil.
  - destruct (Re.match_here p (c :: s)) eqn:E; [done|].
    destruct j as [|j]; [done|]. apply (IH _ H). simpl in Hj. lia.
Qed.

Lemma search_from_None_intro p : forall s i,
  (forall j, j <= length s -> Re.match_here p (drop j s) = None) ->
  Re.search_from i p s = None.
Proof.
  induction s as [|c s IH]; intros i H; cbn [Re.search_from].
  - by rewrite (H 0 (Nat.le_refl _) : Re.match_here p [] = None).
  - rewrite (H 0 (Nat.le_0_l _) : Re.match_here p (c :: s) = None).
    apply IH. intros j Hj.
    apply (H (S j)). simpl. lia.
Qed.

(** Where the anchor lies when the scan finds one. *)
Lemma search_anchor content st e :
  Re.search pattern content = Some (st, e) ->
  exists before title rest,
    content = before ++ u "## " ++ title ++ LF :: rest /\
    length before = st /\ title <> [] /\ Forall title_char title /\
    ((exists rest', rest = LF :: rest' /\ e = st + 3 + length title + 2) \/
     (head rest <> Some LF /\ 2 <= length title /\
      e = st + 3 + length title + 1)) /\
    forall j, j < st -> Re.match_here pattern (drop j content) = None.
Proof.
  intros (before & after & n & -> & -> & -> & Hm & Hfirst)%search_from_inv.
  apply match_pattern_inv in Hm as (title & rest & -> & Hne & Ht & Hcase).
  exists before, title, rest. split_and!; try done.
  destruct Hcase as [(r & -> & ->)|(? & ? & ->)]; [left|right];
    eauto 10 with lia.
Qed.

(** A text without ["## "] anywhere offers no anchor. *)
Lemma no_double_hash_no_anchor content :
  contains (u "## ") content = false -> Re.search pattern content = None.
Proof.
  intros Hno. apply search_from_None_intro. intros j _.
  destruct (Re.match_here pattern (drop j content)) as [n|] eqn:E; [|done].
  apply match_pattern_inv in E as (title & rest & Hdrop & _).
  assert (contains (u "## ") content = true); [|congruence].
  rewrite <- (take_drop j content), Hdrop. apply contains_intro.
Qed.

End AnchorPattern.

(** ** The three outcomes of [add_knowledge_section] *)

Section Outcomes.

Implicit Types file_path agent_name content : str.
Implicit Types w : world.

Lemma read_text_Return w file_path content :
  read_text w file_path = Return content <->
  exists raw, files w !! file_path = Some raw /\
              content = universal_newlines raw.
Proof.
  unfold read_text. destruct (files w !! file_path) as [raw|].
  - split; [intros [= <-]; eauto|]. by intros (? & [= <-] & ->).
  - split; [by destruct (blocked w !! file_path)|]. by intros (? & ? & _).
Qed.

Lemma Return_pair_inj {A B} (a a' : A) (b b' : B) :
  Return (a, b) = Return (a', b') -> a = a' /\ b = b'.
Proof. intros H. split; congruence. Qed.

Lemma add_present file_path agent_name w content :
  read_text w file_path = Return content ->
  contains marker content = true ->
  add_knowledge_section file_path agent_name w =
  Return (false, print (msg_present file_path) w).
Proof. unfold add_knowledge_section. by intros -> ->. Qed.

Lemma add_no_anchor file_path agent_name w content :
  read_text w file_path = Return content ->
  contains marker content = false ->
  Re.search pattern content = None ->
  add_knowledge_section file_path agent_name w =
  Return (false, print (msg_no_anchor file_path) w).
Proof. unfold add_knowledge_section. by intros -> -> ->. Qed.

Lemma add_inserted file_path agent_name w content m :
  read_text w file_path = Return content ->
  contains marker content = false ->
  Re.search pattern content = Some m ->
  add_knowledge_section file_path agent_name w =
  Return (true,
          print (msg_inserted file_path)
            (write_text file_path
               (spliced content (Re.match_end m) agent_name) w)).
Proof. unfold add_knowledge_section. by intros -> -> ->. Qed.

(** A call on a path that holds no text file raises before it prints
    or writes anything. *)
Lemma add_raises file_path agent_name w :
  files w !! file_path = None ->
  add_knowledge_section file_path agent_name w =
  Raise (default FileNotFoundError (blocked w !! file_path)).
Proof.
  unfold add_knowledge_section, read_text. intros ->.
  by destruct (blocked w !! file_path).
Qed.

Lemma add_true_inv file_path agent_name w w' :
  add_knowledge_section file_path agent_name w = Return (true, w') ->
  exists content m,
    read_text w file_path = Return content /\
    contains marker content = false /\
    Re.search pattern content = Some m /\
    w' = print (msg_inserted file_path)
           (write_text file_path
              (spliced content (Re.match_end m) agent_name) w).
Proof.
  unfold add_knowledge_section.
  destruct (read_text w file_path) as [content|]; [|done].
  destruct (contains marker content) eqn:Hc.
  { by intros [? _]%Return_pair_inj. }
  destruct (Re.search pattern content) as [m|] eqn:Hs.
  - intros [_ <-]%Return_pair_inj. exists content, m.
    split_and!; first [assumption | reflexivity].
  - by intros [? _]%Return_pair_inj.
Qed.

Lemma add_false_inv file_path agent_name w w' :
  add_knowledge_section file_path agent_name w = Return (false, w') ->
  files w' = files w.
Proof.
  unfold add_knowledge_section.
  destruct (read_text w file_path) as [content|]; [|done].
  destruct (contains marker content).
  { by intros [_ <-]%Return_pair_inj. }
  destruct (Re.search pattern content) as [m|].
  - by intros [? _]%Return_pair_inj.
  - by intros [_ <-]%Return_pair_inj.
Qed.

(** The rendered section opens with a line feed and the marker. *)
Lemma knowledge_section_marker agent_name :
  exists tail, knowledge_section agent_name = [LF] ++ marker ++ tail.
Proof.
  unfold knowledge_section.
  match goal with
  | |- exists tail, u ?l ++ ?r = _ =>
      exists (drop 28 (u l) ++ r);
      assert (H : u l = ([LF] ++ marker) ++ drop 28 (u l))
        by (vm_compute; reflexivity)
  end.
  rewrite H at 1. by rewrite <- !app_assoc.
Qed.

(** After an insertion the file reads back with the marker in it. *)
Lemma marker_plain :
  exists sub, marker = chr "#" :: sub /\ Forall (fun d => d <> CR) sub.
Proof.
  exists (tl marker). split; [by vm_compute|].
  apply (bool_decide_unpack _). by vm_compute.
Qed.

Lemma marker_after_splice content insert_pos agent_name :
  contains marker
    (universal_newlines (spliced content insert_pos agent_name)) = true.
Proof.
  unfold spliced.
  destruct (knowledge_section_marker agent_name) as [tail ->].
  destruct marker_plain as (sub & -> & Hsub).
  replace (take insert_pos content ++ ([LF] ++ (chr "#" :: sub) ++ tail)
             ++ drop insert_pos content)
    with ((take insert_pos content ++ [LF]) ++ (chr "#" :: sub)
            ++ (tail ++ drop insert_pos content))
    by (by rewrite <- !app_assoc).
  by apply universal_newlines_keeps.
Qed.

End Outcomes.

(** ** Properties of the injector *)

Section Injector.

Implicit Types file_path agent_name content : str.
Implicit Types w : world.

(** C1: when the marker occurs as a literal substring of the document,
    the injection returns [False] and leaves every file as it was; the
    test comes before the heading scan, so nothing is assumed about an
    anchor. *)
Theorem C1_marker_present_is_noop file_path agent_name w content a b :
  read_text w file_path = Return content ->
  content = a ++ marker ++ b ->
  exists w',
    add_knowledge_section file_path agent_name w = Return (false, w') /\
    files w' = files w /\
    stdout w' = stdout w ++ [msg_present file_path].
Proof.
  intros Hread ->. eexists. split.
  - apply (add_present _ _ _ _ Hread), contains_intro.
  - done.
Qed.

Lemma C1_witness :
  Re.search pattern marker = None /\
  exists w',
    add_knowledge_section (u "a.md") (u "a") (world_of (u "a.md") marker)
      = Return (false, w') /\
    files w' = files (world_of (u "a.md") marker) /\
    stdout w' = stdout (world_of (u "a.md") marker) ++ [msg_present (u "a.md")].
Proof.
  split; [by vm_compute|].
  apply (C1_marker_present_is_noop _ _ _ marker [] []); by vm_compute.
Defined.

(** C2: after an injection that succeeded, a second injection into the
    same file returns [False] and changes no file. *)
Theorem C2_second_run_is_noop file_path agent_name w w1 :
  add_knowledge_section file_path agent_name w = Return (true, w1) ->
  exists w2,
    add_knowledge_section file_path agent_name w1 = Return (false, w2) /\
    files w2 = files w1 /\
    read_text w2 file_path = read_text w1 file_path.
Proof.
  intros (content & m & Hread & _ & _ & Hw1)%add_true_inv.
  exists (print (msg_present file_path) w1). split_and!; [|reflexivity..].
  apply (add_present _ _ _
           (universal_newlines
              (spliced content (Re.match_end m) agent_name))).
  - rewrite Hw1. unfold read_text, print, write_text. cbn [files].
    by rewrite lookup_insert_eq.
  - apply marker_after_splice.
Qed.

Lemma C2_witness :
  let w := world_of (u "a.md") doc_scenario in
  let w1 := print (msg_inserted (u "a.md"))
              (write_text (u "a.md") (spliced doc_scenario 19 (u "agent-x")) w) in
  exists w2,
    add_knowledge_section (u "a.md") (u "agent-x") w1 = Return (false, w2) /\
    files w2 = files w1 /\
    read_text w2 (u "a.md") = read_text w1 (u "a.md").
Proof.
  intros w w1. apply (C2_second_run_is_noop _ _ w w1).
  apply (add_inserted _ _ _ doc_scenario (8, 19)); by vm_compute.
Defined.

(** C5, where the code departs from it: a document whose only headings
    are of level 1 and 3 has no level-2 heading, yet the scan takes
    the [## ] inside the level-3 heading and the file is rewritten
    (the defect of C3). *)
Theorem C5_level3_only_is_rewritten :
  Spec.insertion_offset doc_level3_only = None /\
  map Spec.level2_heading (Spec.split_lines doc_level3_only)
    = [false; false; false; false] /\
  contains marker doc_level3_only = false /\
  Re.search pattern doc_level3_only = Some (9, 24) /\
  forall file_path agent_name w,
    read_text w file_path = Return doc_level3_only ->
    exists w',
      add_knowledge_section file_path agent_name w = Return (true, w') /\
      files w' !! file_path =
        Some (u "# Title
### Sub heading
" ++ knowledge_section agent_name ++ u "text
").
Proof.
  split_and!; try by vm_compute.
  intros file_path agent_name w Hread. eexists. split.
  - apply (add_inserted _ _ _ doc_level3_only (9, 24)); [done|by vm_compute..].
  - unfold print, write_text. cbn [files]. by rewrite lookup_insert_eq.
Qed.

(** The missing-anchor scenario: a document with neither the marker nor
    ["## "] anywhere, such as one with a level-1 title only, is left
    alone. *)
Corollary no_heading_no_mutation file_path agent_name w content :
  read_text w file_path = Return content ->
  contains marker content = false ->
  contains (u "## ") content = false ->
  add_knowledge_section file_path agent_name w =
  Return (false, print (msg_no_anchor file_path) w).
Proof.
  intros Hread Hmarker Hno.
  by apply (add_no_anchor _ _ _ content), no_double_hash_no_anchor.
Qed.

(** C6: a successful injection writes the text before the insertion
    offset, the rendered section, and the text from the offset on; the
    section is the fixed text with the name put at each of its three
    placeholders, and the original text is all there, in order. *)
Theorem C6_splice_preserves_text file_path agent_name w w' :
  add_knowledge_section file_path agent_name w = Return (true, w') ->
  exists content st insert_pos,
    read_text w file_path = Return content /\
    Re.search pattern content = Some (st, insert_pos) /\
    files w' =
      <[file_path := take insert_pos content ++ knowledge_section agent_name
                       ++ drop insert_pos content]> (files w) /\
    take insert_pos content ++ drop insert_pos content = content /\
    exists t0 t1 t2 t3,
      (forall name, knowledge_section name =
                    t0 ++ name ++ t1 ++ name ++ t2 ++ name ++ t3) /\
      Forall (fun t => contains (u "{agent_name}") t = false) [t0; t1; t2; t3].
Proof.
  intros (content & [st e] & Hread & _ & Hscan & ->)%add_true_inv.
  exists content, st, e. split_and!; try done.
  - apply take_drop.
  - unfold knowledge_section. do 4 eexists. split.
    + intros name. reflexivity.
    + repeat constructor; by vm_compute.
Qed.

Lemma C6_witness :
  let w := world_of (u "a.md") doc_scenario in
  let w' := print (msg_inserted (u "a.md"))
              (write_text (u "a.md") (spliced doc_scenario 19 (u "agent-x")) w) in
  exists content st insert_pos,
    read_text w (u "a.md") = Return content /\
    Re.search pattern content = Some (st, insert_pos) /\
    files w' =
      <[u "a.md" := take insert_pos content ++ knowledge_section (u "agent-x")
                      ++ drop insert_pos content]> (files w) /\
    take insert_pos content ++ drop insert_pos content = content /\
    exists t0 t1 t2 t3,
      (forall name, knowledge_section name =
                    t0 ++ name ++ t1 ++ name ++ t2 ++ name ++ t3) /\
      Forall (fun t => contains (u "{agent_name}") t = false) [t0; t1; t2; t3].
Proof.
  intros w w'. apply (C6_splice_preserves_text _ _ w w').
  apply (add_inserted _ _ _ doc_scenario (8, 19)); by vm_compute.
Defined.

(** C4, as the code has it: the section goes right after the line feed
    of the anchor heading, except that a blank line directly after the
    heading is taken into the match, and the section then goes after
    that blank line. *)
Theorem C4_insertion_point file_path agent_name w w' content :
  read_text w file_path = Return content ->
  add_knowledge_section file_path agent_name w = Return (true, w') ->
  exists before title rest,
    content = before ++ u "## " ++ title ++ [LF] ++ rest /\
    title <> [] /\ Forall title_char title /\
    ((head rest <> Some LF /\
      files w' !! file_path =
        Some (before ++ u "## " ++ title ++ [LF]
                ++ knowledge_section agent_name ++ rest)) \/
     (exists rest', rest = LF :: rest' /\
      files w' !! file_path =
        Some (before ++ u "## " ++ title ++ [LF; LF]
                ++ knowledge_section agent_name ++ rest'))).
Proof.
  intros Hread (content' & [st e] & Hread' & _ & Hscan & ->)%add_true_inv.
  assert (content' = content) as -> by congruence.
  apply search_anchor in Hscan
    as (before & title & rest & Hcontent & Hlen & Hne & Ht & Hcase & _).
  exists before, title, rest. split_and!; try done.
  unfold print, write_text, spliced, Re.match_end. cbn [files snd].
  rewrite lookup_insert_eq.
  assert (length (u "## ") = 3) as H3 by reflexivity.
  destruct Hcase as [(rest' & -> & ->)|(Hrest & _ & ->)]; [right|left].
  - exists rest'. split; [done|]. f_equal. rewrite Hcontent.
    replace (before ++ u "## " ++ title ++ LF :: LF :: rest')
      with ((before ++ u "## " ++ title ++ [LF; LF]) ++ rest')
      by (by rewrite <- !app_assoc).
    rewrite take_app_length', drop_app_length'
      by (rewrite !length_app, H3; simpl; lia).
    by rewrite <- !app_assoc.
  - split; [done|]. f_equal. rewrite Hcontent.
    replace (before ++ u "## " ++ title ++ LF :: rest)
      with ((before ++ u "## " ++ title ++ [LF]) ++ rest)
      by (by rewrite <- !app_assoc).
    rewrite take_app_length', drop_app_length'
      by (rewrite !length_app, H3; simpl; lia).
    by rewrite <- !app_assoc.
Qed.

Lemma C4_witness :
  exists before title rest,
    doc_blank_after = before ++ u "## " ++ title ++ [LF] ++ rest /\
    title <> [] /\ Forall title_char title /\
    ((head rest <> Some LF /\
      files (print (msg_inserted (u "a.md"))
               (write_text (u "a.md") (spliced doc_blank_after 12 (u "agent-x"))
                  (world_of (u "a.md") doc_blank_after))) !! u "a.md" =
        Some (before ++ u "## " ++ title ++ [LF]
                ++ knowledge_section (u "agent-x") ++ rest)) \/
     (exists rest', rest = LF :: rest' /\
      files (print (msg_inserted (u "a.md"))
               (write_text (u "a.md") (spliced doc_blank_after 12 (u "agent-x"))
                  (world_of (u "a.md") doc_blank_after))) !! u "a.md" =
        Some (before ++ u "## " ++ title ++ [LF; LF]
                ++ knowledge_section (u "agent-x") ++ rest'))).
Proof.
  apply (C4_insertion_point (u "a.md") (u "agent-x")
           (world_of (u "a.md") doc_blank_after)).
  - by vm_compute.
  - apply (add_inserted _ _ _ doc_blank_after (0, 12)); by vm_compute.
Defined.

(** C4, as stated, fails when a blank line follows the anchor heading:
    the section is written after the blank line, not between the
    heading's line feed and the blank line. *)
Lemma C4_blank_line_counterexample :
  exists w',
    add_knowledge_section (u "a.md") (u "agent-x")
      (world_of (u "a.md") doc_blank_after) = Return (true, w') /\
    files w' !! u "a.md" =
      Some (u "## Section

" ++ knowledge_section (u "agent-x") ++ u "Body text
") /\
    files w' !! u "a.md" <>
      Some (u "## Section
" ++ knowledge_section (u "agent-x") ++ u "
Body text
").
Proof.
  eexists. split.
  - apply (add_inserted _ _ _ doc_blank_after (0, 12)); by vm_compute.
  - split; [by vm_compute|]. vm_compute. discriminate.
Qed.

(** C7, as stated, fails: whenever one call ends because the marker is
    present and another because no anchor is found, the two calls
    return the same value. *)
Lemma C7_same_result_counterexample :
  ~ (exists file_path1 agent_name1 w1 content1 file_path2 agent_name2 w2 content2
            r1 w1' r2 w2',
       read_text w1 file_path1 = Return content1 /\
       contains marker content1 = true /\
       read_text w2 file_path2 = Return content2 /\
       contains marker content2 = false /\
       Re.search pattern content2 = None /\
       add_knowledge_section file_path1 agent_name1 w1 = Return (r1, w1') /\
       add_knowledge_section file_path2 agent_name2 w2 = Return (r2, w2') /\
       r1 <> r2).
Proof.
  intros (p1 & n1 & w1 & c1 & p2 & n2 & w2 & c2 & r1 & w1' & r2 & w2'
          & Hr1 & Hm1 & Hr2 & Hm2 & Hs2 & Ha1 & Ha2 & Hne).
  rewrite (add_present _ _ _ _ Hr1 Hm1) in Ha1.
  rewrite (add_no_anchor _ _ _ _ Hr2 Hm2 Hs2) in Ha2.
  apply Return_pair_inj in Ha1 as [<- _].
  apply Return_pair_inj in Ha2 as [<- _]. done.
Qed.

(** C7, as the code has it: both outcomes return [False] and leave the
    files alone; they differ only in the message the call prints. *)
Theorem C7_outcomes_differ_in_message
    file_path1 agent_name1 w1 content1 file_path2 agent_name2 w2 content2 :
  read_text w1 file_path1 = Return content1 ->
  contains marker content1 = true ->
  read_text w2 file_path2 = Return content2 ->
  contains marker content2 = false ->
  Re.search pattern content2 = None ->
  exists w1' w2',
    add_knowledge_section file_path1 agent_name1 w1 = Return (false, w1') /\
    add_knowledge_section file_path2 agent_name2 w2 = Return (false, w2') /\
    files w1' = files w1 /\ files w2' = files w2 /\
    stdout w1' = stdout w1 ++ [msg_present file_path1] /\
    stdout w2' = stdout w2 ++ [msg_no_anchor file_path2] /\
    msg_present file_path1 <> msg_no_anchor file_path2.
Proof.
  intros Hr1 Hm1 Hr2 Hm2 Hs2.
  exists (print (msg_present file_path1) w1),
         (print (msg_no_anchor file_path2) w2).
  split_and!; try reflexivity.
  - by apply (add_present _ _ _ content1).
  - by apply (add_no_anchor _ _ _ content2).
  - intros H. apply (f_equal head) in H. vm_compute in H. discriminate.
Qed.

Lemma C7_witness :
  exists w1' w2',
    add_knowledge_section (u "a.md") (u "a") (world_of (u "a.md") marker)
      = Return (false, w1') /\
    add_knowledge_section (u "b.md") (u "b") (world_of (u "b.md") doc_title_only)
      = Return (false, w2') /\
    files w1' = files (world_of (u "a.md") marker) /\
    files w2' = files (world_of (u "b.md") doc_title_only) /\
    stdout w1' = stdout (world_of (u "a.md") marker) ++ [msg_present (u "a.md")] /\
    stdout w2' = stdout (world_of (u "b.md") doc_title_only)
                   ++ [msg_no_anchor (u "b.md")] /\
    msg_present (u "a.md") <> msg_no_anchor (u "b.md").
Proof.
  apply (C7_outcomes_differ_in_message _ _ _ marker _ _ _ doc_title_only);
    by vm_compute.
Defined.

(** C10: a document without the marker whose only level-2 heading has a
    one-character title and is followed by a non-blank line gets no
    section: the scan finds no anchor. *)
Theorem C10_single_character_title :
  exists content c rest,
    content = u "## " ++ c :: LF :: rest /\
    c <> chr "#" /\ c <> LF /\
    (exists d rest', rest = d :: rest' /\ d <> LF) /\
    map Spec.level2_heading (Spec.split_lines content) = [true; false; false] /\
    contains marker content = false /\
    Re.search pattern content = None /\
    forall file_path agent_name w,
      read_text w file_path = Return content ->
      add_knowledge_section file_path agent_name w =
      Return (false, print (msg_no_anchor file_path) w).
Proof.
  exists doc_short_title, (chr "A"), (u "body" ++ [LF]).
  split_and!; try by vm_compute.
  - exists (chr "b"), (u "ody" ++ [LF]). by vm_compute.
  - intros file_path agent_name w Hread.
    apply (add_no_anchor _ _ _ _ Hread); by vm_compute.
Qed.

(** C3, where the code departs from it: the pattern is not tied to the
    start of a line, so the scan takes the [## ] inside a level-3
    heading, or in the middle of a line, although a level-2 heading
    comes later. *)
Theorem C3_anchor_not_level2_heading :
  Re.search pattern doc_level3 = Some (1, 8) /\
  Spec.insertion_offset doc_level3 = Some 21 /\
  Re.search pattern doc_midline = Some (6, 23) /\
  Spec.insertion_offset doc_midline = Some 31 /\
  forall file_path agent_name w,
    read_text w file_path = Return doc_level3 ->
    exists w',
      add_knowledge_section file_path agent_name w = Return (true, w') /\
      files w' !! file_path =
        Some (u "### Sub
" ++ knowledge_section agent_name ++ u "text
## Main
body
").
Proof.
  split_and!; try by vm_compute.
  intros file_path agent_name w Hread. eexists. split.
  - apply (add_inserted _ _ _ doc_level3 (1, 8)); [done|by vm_compute..].
  - unfold print, write_text. cbn [files]. by rewrite lookup_insert_eq.
Qed.

End Injector.

(** ** The line formatter: one line *)

Section FormatLine.

Import Spec LineFormatter.

Implicit Types s line : str.

Lemma is_space_SP : is_space SP = true.
Proof. reflexivity. Qed.

Lemma is_space_hash c : (c =? chr "#")%N = true -> is_space c = false.
Proof. by intros ->%N.eqb_eq. Qed.

Lemma lstrip_starts_clean s : starts_clean (lstrip s).
Proof.
  induction s as [|c s IH]; [done|]. simpl.
  by destruct (is_space c) eqn:E.
Qed.

Lemma lstrip_clean s : starts_clean s -> lstrip s = s.
Proof. destruct s as [|c s]; [done|]. simpl. by intros ->. Qed.

Lemma rstrip_cons c s :
  rstrip (c :: s) =
  match rstrip s with
  | [] => if is_space c then [] else [c]
  | r => c :: r
  end.
Proof. reflexivity. Qed.

Lemma rstrip_rstrip s : rstrip (rstrip s) = rstrip s.
Proof.
  induction s as [|c s IH]; [done|]. rewrite rstrip_cons.
  destruct (rstrip s) as [|d r] eqn:E.
  - destruct (is_space c) eqn:Ec; [done|]. simpl. by rewrite Ec.
  - rewrite rstrip_cons, IH. done.
Qed.

Lemma rstrip_lstrip s : rstrip (lstrip s) = lstrip (rstrip s).
Proof.
  induction s as [|c s IH]; [done|]. rewrite rstrip_cons.
  cbn [lstrip]. destruct (is_space c) eqn:Ec.
  - rewrite IH. destruct (rstrip s) as [|d r]; [done|].
    cbn [lstrip]. by rewrite Ec.
  - rewrite rstrip_cons.
    destruct (rstrip s) as [|d r]; [rewrite Ec|]; cbn [lstrip]; by rewrite Ec.
Qed.

Lemma trim_trim s : trim (trim s) = trim s.
Proof.
  unfold trim. rewrite rstrip_lstrip, rstrip_rstrip.
  apply lstrip_clean, lstrip_starts_clean.
Qed.

(** Stripping keeps what holds of every character and of every pair of
    neighbours. *)
Lemma lstrip_suffix s : exists a, s = a ++ lstrip s.
Proof.
  induction s as [|c s [a IH]]; [by exists []|]. simpl.
  destruct (is_space c); [|by exists []].
  exists (c :: a). simpl. by f_equal.
Qed.

Lemma rstrip_prefix s : exists b, s = rstrip s ++ b.
Proof.
  induction s as [|c s [b IH]]; [by exists []|]. rewrite rstrip_cons.
  destruct (rstrip s) as [|d r].
  - destruct (is_space c); [by exists (c :: s)|].
    exists s. done.
  - exists b. simpl. by f_equal.
Qed.

Lemma single_gaps_app_r a s : single_gaps (a ++ s) -> single_gaps s.
Proof.
  induction a as [|c a IH]; [done|]. intros H. apply IH.
  simpl in H. destruct (a ++ s); [done|]. tauto.
Qed.

Lemma single_gaps_app_l s b : single_gaps (s ++ b) -> single_gaps s.
Proof.
  induction s as [|c s IH]; [done|]. intros H.
  destruct s as [|d s]; [done|]. simpl in *. split; [tauto|]. apply IH. tauto.
Qed.

Lemma trim_keeps (P : str -> Prop) s :
  (forall a b, P (a ++ b) -> P a /\ P b) -> P s -> P (trim s).
Proof.
  intros HP Hs. unfold trim.
  destruct (rstrip_prefix s) as [b Hb].
  destruct (lstrip_suffix (rstrip s)) as [a Ha].
  rewrite Hb in Hs. apply HP in Hs as [Hs _].
  rewrite Ha in Hs. by apply HP in Hs as [_ Hs].
Qed.

Lemma trim_single_gaps s : single_gaps s -> single_gaps (trim s).
Proof.
  apply (trim_keeps single_gaps). intros a b H.
  split; [by apply single_gaps_app_l in H|by apply single_gaps_app_r in H].
Qed.

Lemma trim_Forall (P : N -> Prop) s : Forall P s -> Forall P (trim s).
Proof.
  apply (trim_keeps (Forall P)). intros a b H. by apply Forall_app.
Qed.

Lemma single_gaps_cons c s :
  is_space c = false \/ starts_clean s ->
  single_gaps s -> single_gaps (c :: s).
Proof.
  intros Hc Hs. destruct s as [|d s]; [done|]. split; [|done].
  intros [Hc' Hd]. destruct Hc as [Hc|Hc]; simpl in *; congruence.
Qed.

Lemma collapse_runs_gaps : forall s b,
  single_gaps (collapse_runs b s) /\
  (b = true -> starts_clean (collapse_runs b s)).
Proof.
  induction s as [|c s IH]; intros b; [done|]. cbn [collapse_runs].
  destruct (is_space c) eqn:Ec.
  - destruct b; [apply IH|]. split; [|done].
    destruct s as [|d s]; [done|].
    destruct (is_space d) eqn:Ed.
    + apply single_gaps_cons; [right|]; by apply IH.
    + apply single_gaps_cons; [right|by apply IH].
      cbn [collapse_runs]. by rewrite Ed.
  - split; [|by intros _].
    apply single_gaps_cons; [by left|apply IH].
Qed.

Lemma collapse_runs_fixed : forall s,
  single_gaps s -> collapse_runs false s = s.
Proof.
  induction s as [|c s IH]; intros Hs; [done|]. cbn [collapse_runs].
  assert (single_gaps s) as Hs' by (destruct s; [done|apply Hs]).
  destruct (is_space c) eqn:Ec; [|by rewrite IH].
  destruct s as [|d s]; [done|].
  destruct (is_space d) eqn:Ed; [by destruct Hs as [[] _]|].
  by rewrite IH.
Qed.

Lemma collapse_runs_heading : forall s n,
  heading_scan n (collapse_runs false s) = heading_scan n s.
Proof.
  induction s as [|c s IH]; intros n; [done|]. cbn [collapse_runs].
  destruct (c =? chr "#")%N eqn:Eh.
  - rewrite (is_space_hash _ Eh). cbn [heading_scan]. by rewrite Eh, IH.
  - destruct (is_space c) eqn:Ec.
    + destruct s as [|d s]; [done|]. destruct (is_space d).
      * cbn [heading_scan]. by rewrite Eh, Ec.
      * cbn [heading_scan]. by rewrite Eh, Ec.
    + cbn [heading_scan]. by rewrite Eh, Ec.
Qed.

Lemma collapse_all_neat : forall s b,
  single_gaps (collapse_all b s) /\ only_spaces (collapse_all b s) /\
  (b = true -> starts_clean (collapse_all b s)).
Proof.
  induction s as [|c s IH]; intros b; [by split_and!; [|constructor|]|].
  cbn [collapse_all]. destruct (is_space c) eqn:Ec.
  - destruct b; [apply IH|]. destruct (IH true) as (Hg & Ho & Hc).
    split_and!; [|by constructor|done].
    apply single_gaps_cons; [right; by apply Hc|done].
  - destruct (IH false) as (Hg & Ho & _). split_and!.
    + apply single_gaps_cons; [by left|done].
    + constructor; [congruence|done].
    + done.
Qed.

Lemma collapse_all_fixed : forall s b,
  single_gaps s -> only_spaces s -> (b = true -> starts_clean s) ->
  collapse_all b s = s.
Proof.
  induction s as [|c s IH]; intros b Hg Ho Hb; [done|]. cbn [collapse_all].
  apply Forall_cons in Ho as [Hc Ho].
  assert (single_gaps s) as Hg' by (destruct s; [done|apply Hg]).
  destruct (is_space c) eqn:Ec.
  - destruct b; [by specialize (Hb eq_refl); simpl in Hb; congruence|].
    rewrite (Hc eq_refl), IH; try done. intros _.
    destruct s as [|d s]; [done|]. simpl.
    destruct (is_space d) eqn:Ed; [by destruct Hg as [[] _]|done].
  - rewrite IH; done.
Qed.

Lemma collapse_all_Forall (P : N -> Prop) : forall s b,
  P SP -> Forall P s -> Forall P (collapse_all b s).
Proof.
  induction s as [|c s IH]; intros b HP Hs; [done|].
  apply Forall_cons in Hs as [Hc Hs]. cbn [collapse_all].
  destruct (is_space c), b; try constructor; auto.
Qed.

Lemma collapse_runs_Forall (P : N -> Prop) : forall s b,
  P SP -> Forall P s -> Forall P (collapse_runs b s).
Proof.
  induction s as [|c s IH]; intros b HP Hs; [done|].
  apply Forall_cons in Hs as [Hc Hs]. cbn [collapse_runs].
  destruct (is_space c), b; try (constructor; auto); auto.
  destruct s as [|d s]; [by repeat constructor|].
  destruct (is_space d); constructor; auto.
Qed.

(** A heading after step 2a: single spaces only, none at either end. *)
Lemma tidy_heading_fixed s h :
  h = trim (collapse_all false s) ->
  collapse_runs false h = h /\ trim (collapse_all false h) = h.
Proof.
  intros ->. set (h := trim (collapse_all false s)). destruct (collapse_all_neat s false) as (Hg & Ho & _).
  assert (single_gaps h) as Hg' by by apply trim_single_gaps.
  assert (only_spaces h) as Ho' by by apply trim_Forall.
  split; [by apply collapse_runs_fixed|].
  rewrite collapse_all_fixed by done. apply trim_trim.
Qed.

(** Steps 2a and 2b leave a line they have produced as it is. *)
Lemma format_line_idempotent line :
  format_line (format_line line) = format_line line.
Proof.
  destruct (heading_level line) as [n|] eqn:Eh.
  - destruct (tidy_heading_fixed line _ eq_refl) as [Hr Ht].
    assert (format_line line = trim (collapse_all false line)) as ->
      by (unfold format_line; by rewrite Eh).
    unfold format_line.
    destruct (heading_level (trim _)); [by rewrite Ht|by rewrite Hr].
  - assert (format_line line = collapse_runs false line) as ->
      by (unfold format_line; by rewrite Eh).
    unfold format_line, heading_level. rewrite collapse_runs_heading.
    fold (heading_level line). rewrite Eh.
    apply collapse_runs_fixed, collapse_runs_gaps.
Qed.

Lemma format_line_Forall (P : N -> Prop) line :
  P SP -> Forall P line -> Forall P (format_line line).
Proof.
  intros HP Hl. unfold format_line. apply collapse_runs_Forall; [done|].
  destruct (heading_level line); [|done].
  by apply trim_Forall, collapse_all_Forall.
Qed.

End FormatLine.

(** ** The line formatter: the whole text *)

Section FormatText.

Import Spec LineFormatter.

Implicit Types l line : str.
Implicit Types ls : list str.

Lemma emit_spaced : forall ls prev_blank,
  spaced_headings prev_blank (emit_lines prev_blank ls).
Proof.
  induction ls as [|l rest IH]; intros pb; [done|]. cbn [emit_lines].
  destruct (top_heading (format_line l) && negb pb) eqn:E.
  - apply andb_true_iff in E as [Hh _].
    split_and!; [done|done|]. change (is_blank []) with true.
    split_and!; [apply format_line_idempotent|done|apply IH].
  - split_and!; [apply format_line_idempotent| |apply IH].
    intros Hh. rewrite Hh in E. by destruct pb.
Qed.

Lemma emit_fixed : forall ls prev_blank,
  spaced_headings prev_blank ls -> emit_lines prev_blank ls = ls.
Proof.
  induction ls as [|l rest IH]; intros pb H; [done|].
  destruct H as (Hl & Hh & Hrest). cbn [emit_lines]. rewrite Hl.
  destruct (top_heading l) eqn:E.
  - rewrite (Hh eq_refl). cbn [negb andb]. by rewrite IH.
  - cbn [andb]. by rewrite IH.
Qed.

Lemma collapse_blank_spaced : forall ls prev_blank seen_blank,
  (seen_blank = true -> prev_blank = true) ->
  spaced_headings prev_blank ls ->
  spaced_headings prev_blank (collapse_blank seen_blank ls).
Proof.
  induction ls as [|l rest IH]; intros pb sb Hsb H; [done|].
  destruct H as (Hl & Hh & Hrest). cbn [collapse_blank].
  destruct (is_blank l) eqn:E.
  - destruct sb.
    + rewrite (Hsb eq_refl). by apply IH.
    + split_and!; [done..|]. rewrite E. by apply IH.
  - split_and!; [done..|]. rewrite E. by apply IH.
Qed.

Lemma collapse_blank_no_runs : forall ls prev_blank,
  no_blank_runs prev_blank (collapse_blank prev_blank ls).
Proof.
  induction ls as [|l rest IH]; intros pb; [done|]. cbn [collapse_blank].
  destruct (is_blank l) eqn:E.
  - destruct pb; [apply IH|]. split; [by intros [_ ?]|]. rewrite E. apply IH.
  - split; [rewrite E; by intros [? _]|]. rewrite E. apply IH.
Qed.

Lemma collapse_blank_fixed : forall ls prev_blank,
  no_blank_runs prev_blank ls -> collapse_blank prev_blank ls = ls.
Proof.
  induction ls as [|l rest IH]; intros pb H; [done|].
  destruct H as [Hl Hrest]. cbn [collapse_blank]. destruct (is_blank l) eqn:E.
  - destruct pb; [by destruct Hl|]. by rewrite IH.
  - by rewrite IH.
Qed.

(** Splitting undoes joining when no line holds a line feed. *)
Lemma split_lines_single l :
  Forall (fun c => c <> LF) l -> split_lines l = [l].
Proof.
  induction 1 as [|c l Hc _ IH]; [done|]. cbn [split_lines].
  apply N.eqb_neq in Hc as ->. by rewrite IH.
Qed.

Lemma split_lines_app l s :
  Forall (fun c => c <> LF) l ->
  split_lines (l ++ LF :: s) = l :: split_lines s.
Proof.
  induction 1 as [|c l Hc _ IH]; [done|]. cbn [split_lines app].
  apply N.eqb_neq in Hc as ->. by rewrite IH.
Qed.

Lemma split_join : forall ls,
  ls <> [] -> free_of_LF ls -> split_lines (join_lines ls) = ls.
Proof.
  induction ls as [|l rest IH]; intros Hne H; [done|].
  apply Forall_cons in H as [Hl Hrest].
  destruct rest as [|l' rest]; [by apply split_lines_single|].
  change (join_lines (l :: l' :: rest))
    with (l ++ LF :: join_lines (l' :: rest)).
  rewrite split_lines_app by done. by rewrite IH.
Qed.

Lemma split_lines_free s : split_lines s <> [] /\ free_of_LF (split_lines s).
Proof.
  induction s as [|c s [Hne IH]]; [by split; [|repeat constructor]|].
  cbn [split_lines]. destruct (N.eqb_spec c LF) as [->|Hc].
  - split; [done|]. by constructor.
  - destruct (split_lines s) as [|l ls]; [done|].
    apply Forall_cons in IH as [Hl Hls]. split; [done|].
    constructor; [by constructor|done].
Qed.

Lemma emit_lines_free : forall ls prev_blank,
  free_of_LF ls -> free_of_LF (emit_lines prev_blank ls).
Proof.
  induction ls as [|l rest IH]; intros pb H; [done|].
  apply Forall_cons in H as [Hl Hrest]. cbn [emit_lines].
  assert (Forall (fun c => c <> LF) (format_line l))
    by (by apply format_line_Forall).
  destruct (_ && _); repeat constructor; try done; by apply IH.
Qed.

Lemma collapse_blank_free : forall ls prev_blank,
  free_of_LF ls -> free_of_LF (collapse_blank prev_blank ls).
Proof.
  induction ls as [|l rest IH]; intros pb H; [done|].
  apply Forall_cons in H as [Hl Hrest]. cbn [collapse_blank].
  destruct (is_blank l), pb; try constructor; try done; by apply IH.
Qed.

Lemma emit_lines_nonempty ls prev_blank :
  ls <> [] -> emit_lines prev_blank ls <> [].
Proof. destruct ls; [done|]. cbn [emit_lines]. by destruct (_ && _). Qed.

Lemma collapse_blank_nonempty ls :
  ls <> [] -> collapse_blank false ls <> [].
Proof. destruct ls; [done|]. cbn [collapse_blank]. by destruct (is_blank _). Qed.

(** C9: [format] is defined on every text, the empty one included, and
    formatting a formatted text changes nothing. *)
Theorem C9_format_idempotent :
  (forall text, format (format text) = format text) /\
  format [] = [].
Proof.
  split; [|reflexivity]. intros text. unfold format.
  set (ls := collapse_blank false (emit_lines true (split_lines text))).
  destruct (split_lines_free text) as [Hne Hfree].
  assert (ls <> []) as Hls
    by (by apply collapse_blank_nonempty, emit_lines_nonempty).
  assert (free_of_LF ls) as Hlsfree
    by (by apply collapse_blank_free, emit_lines_free).
  assert (spaced_headings true ls) as Hspaced
    by (apply collapse_blank_spaced; [done|apply emit_spaced]).
  assert (no_blank_runs false ls) as Hruns
    by apply collapse_blank_no_runs.
  by rewrite split_join, emit_fixed, collapse_blank_fixed.
Qed.

End FormatText.

(** ** The scenarios of the specification, run on the definitions *)

Section Scenarios.

Import LineFormatter.

Example format_heading_gaps :
  format (u "#   Title   with   gaps") = u "# Title with gaps".
Proof. by vm_compute. Qed.

Example format_blank_before_heading :
  format (u "para
## Heading
") = u "para

## Heading
".
Proof. by vm_compute. Qed.

Example format_blank_already_there :
  format (u "
## Heading
") = u "
## Heading
".
Proof. by vm_compute. Qed.

Example inject_scenario :
  exists w1,
    add_knowledge_section (u "agent-x.md") (u "agent-x")
      (world_of (u "agent-x.md") doc_scenario) = Return (true, w1) /\
    files w1 !! u "agent-x.md" =
      Some (u "# Title
## Section
" ++ knowledge_section (u "agent-x") ++ u "Body text
") /\
    exists w2,
      add_knowledge_section (u "agent-x.md") (u "agent-x") w1
        = Return (false, w2) /\
      files w2 = files w1.
Proof.
  exists (print (msg_inserted (u "agent-x.md"))
            (write_text (u "agent-x.md")
               (spliced doc_scenario 19 (u "agent-x"))
               (world_of (u "agent-x.md") doc_scenario))).
  split_and!.
  - apply (add_inserted _ _ _ doc_scenario (8, 19)); by vm_compute.
  - by vm_compute.
  - match goal with
    | |- exists w2, add_knowledge_section ?p _ ?w1 = _ /\ _ =>
        generalize (eq_refl w1); generalize w1 at 1 3 4; intros w1' Hw1;
        exists (print (msg_present p) w1')
    end.
    split; [|reflexivity].
    apply (add_present _ _ _
             (universal_newlines (spliced doc_scenario 19 (u "agent-x"))));
      [rewrite Hw1; by vm_compute|apply marker_after_splice].
Qed.

End Scenarios.

(** ** Further properties of the scan *)

Section Scan.

Implicit Types file_path agent_name content title rest : str.
Implicit Types w : world.

#[local] Arguments chr : simpl never.


Lemma match_needs_line_feed s n :
  Re.match_here pattern s = Some n -> LF ∈ s.
Proof.
  intros (title & rest & -> & _)%match_pattern_inv.
  rewrite !elem_of_app. right. right. apply elem_of_cons. by left.
Qed.

(** X1: a match of the scan starts at ["## "], runs over a non-empty
    title without [#] or line feed and ends just after a line feed,
    inside the text; nothing before it matches. *)
Theorem X1_anchor_shape content st e :
  Re.search pattern content = Some (st, e) ->
  exists before title rest,
    content = before ++ u "## " ++ title ++ LF :: rest /\
    length before = st /\ title <> [] /\ Forall title_char title /\
    st + 5 < e <= length content /\
    content !! (e - 1) = Some LF /\
    forall j, j < st -> Re.match_here pattern (drop j content) = None.
Proof.
  intros (before & title & rest & -> & Hlen & Hne & Ht & Hcase & Hfirst)
    %search_anchor.
  exists before, title, rest. split_and!; try done.
  - destruct title; [done|].
    destruct Hcase as [(r & -> & ->)|(_ & H2 & ->)]; simpl in *; lia.
  - assert (length (u "## ") = 3) as H3 by reflexivity.
    destruct Hcase as [(r & -> & ->)|(_ & _ & ->)];
      rewrite !length_app, H3; simpl; lia.
  - assert (length (u "## ") = 3) as H3 by reflexivity.
    destruct Hcase as [(r & -> & ->)|(_ & _ & ->)].
    + replace (before ++ u "## " ++ title ++ LF :: LF :: r)
        with ((before ++ u "## " ++ title ++ [LF]) ++ LF :: r)
        by (by rewrite <- !app_assoc).
      apply list_lookup_middle. rewrite !length_app, H3. simpl. lia.
    + replace (before ++ u "## " ++ title ++ LF :: rest)
        with ((before ++ u "## " ++ title) ++ LF :: rest)
        by (by rewrite <- !app_assoc).
      apply list_lookup_middle. rewrite !length_app, H3. lia.
Qed.

Lemma X1_witness :
  exists before title rest,
    doc_scenario = before ++ u "## " ++ title ++ LF :: rest /\
    length before = 8 /\ title <> [] /\ Forall title_char title /\
    8 + 5 < 19 <= length doc_scenario /\
    doc_scenario !! (19 - 1) = Some LF /\
    forall j, j < 8 -> Re.match_here pattern (drop j doc_scenario) = None.
Proof. apply (X1_anchor_shape doc_scenario 8 19). by vm_compute. Defined.



(** X3: a text without any line feed, such as a single heading line
    with no newline after it, never gets the section, with or without
    the marker. *)
Theorem X3_no_line_feed_no_insertion file_path agent_name w content :
  read_text w file_path = Return content ->
  Forall (fun c => c <> LF) content ->
  exists w',
    add_knowledge_section file_path agent_name w = Return (false, w') /\
    files w' = files w.
Proof.
  intros Hread Hfree.
  assert (Re.search pattern content = None) as Hscan.
  { apply search_from_None_intro. intros j _.
    destruct (Re.match_here pattern (drop j content)) as [n|] eqn:E; [|done].
    apply match_needs_line_feed in E.
    apply (Forall_drop _ j), Forall_forall with (x := LF) in Hfree; done. }
  destruct (contains marker content) eqn:Hmarker.
  - eexists. split; [by apply (add_present _ _ _ content)|done].
  - eexists. split; [by apply (add_no_anchor _ _ _ content)|done].
Qed.

Lemma X3_witness :
  exists w',
    add_knowledge_section (u "a.md") (u "a")
      (world_of (u "a.md") (u "## Section")) = Return (false, w') /\
    files w' = files (world_of (u "a.md") (u "## Section")).
Proof.
  apply (X3_no_line_feed_no_insertion _ _ _ (u "## Section"));
    [by vm_compute|].
  apply (bool_decide_unpack _). by vm_compute.
Defined.

End Scan.

(** ** Further properties of one call *)

Section OneCall.

Implicit Types file_path agent_name content raw : str.
Implicit Types w : world.

Lemma universal_newlines_no_CR s :
  Forall (fun c => c <> CR) (universal_newlines s).
Proof.
  induction s as [s IH] using (induction_ltof1 _ (@length N)).
  unfold ltof in IH. destruct s as [|c s]; [done|].
  cbn [universal_newlines]. destruct (N.eqb_spec c CR) as [->|Hc].
  - constructor; [done|]. destruct s as [|d s]; [done|].
    destruct (d =? LF)%N; apply IH; simpl; lia.
  - constructor; [done|]. apply IH. simpl. lia.
Qed.

Lemma universal_newlines_id s :
  Forall (fun c => c <> CR) s -> universal_newlines s = s.
Proof.
  intros H. rewrite <- (app_nil_r s) at 1.
  by rewrite universal_newlines_plain, app_nil_r.
Qed.

Lemma knowledge_section_no_CR agent_name :
  Forall (fun c => c <> CR) agent_name ->
  Forall (fun c => c <> CR) (knowledge_section agent_name).
Proof.
  intros Hname. unfold knowledge_section.
  repeat (apply Forall_app; split); try done;
    apply (bool_decide_unpack _); by vm_compute.
Qed.

(** X4: a call returns [True] exactly when it has changed the files. *)
Theorem X4_true_iff_changed file_path agent_name w r w' :
  add_knowledge_section file_path agent_name w = Return (r, w') ->
  r = true <-> files w' <> files w.
Proof.
  intros Hadd. destruct r.
  - split; [intros _|done].
    apply add_true_inv in Hadd as (content & m & Hread & Hmarker & _ & ->).
    apply read_text_Return in Hread as (raw & Hraw & ->).
    unfold print, write_text. cbn [files]. intros Heq.
    assert (raw = spliced (universal_newlines raw) (Re.match_end m) agent_name)
      as Hraw'.
    { apply (f_equal (fun f => f !! file_path)) in Heq.
      rewrite lookup_insert_eq in Heq. congruence. }
    rewrite Hraw' in Hmarker at 1.
    by rewrite marker_after_splice in Hmarker.
  - apply add_false_inv in Hadd. split; [done|]. by intros [].
Qed.

Lemma X4_witness :
  true = true <->
  files (print (msg_inserted (u "a.md"))
           (write_text (u "a.md") (spliced doc_scenario 19 (u "a"))
              (world_of (u "a.md") doc_scenario)))
    <> files (world_of (u "a.md") doc_scenario).
Proof.
  apply (X4_true_iff_changed (u "a.md") (u "a")
           (world_of (u "a.md") doc_scenario)).
  apply (add_inserted _ _ _ doc_scenario (8, 19)); by vm_compute.
Defined.

(** X5: a call that returns prints exactly one message, the one of its
    outcome, and leaves every other file as it was. *)
Theorem X5_one_message_other_files_kept file_path agent_name w r w' :
  add_knowledge_section file_path agent_name w = Return (r, w') ->
  (exists msg,
     stdout w' = stdout w ++ [msg] /\
     (msg = msg_present file_path \/ msg = msg_no_anchor file_path \/
      msg = msg_inserted file_path) /\
     (r = true <-> msg = msg_inserted file_path)) /\
  forall p, p <> file_path -> files w' !! p = files w !! p.
Proof.
  assert (msg_present file_path <> msg_inserted file_path /\
          msg_no_anchor file_path <> msg_inserted file_path) as [Hd1 Hd2].
  { split; intros H; apply (f_equal head) in H;
      vm_compute in H; discriminate H. }
  unfold add_knowledge_section.
  destruct (read_text w file_path) as [content|];
    [|intros H; discriminate H].
  destruct (contains marker content).
  { intros [<- <-]%Return_pair_inj. split; [|reflexivity].
    exists (msg_present file_path).
    split; [reflexivity|]. split; [by left|].
    split; [intros H; discriminate H|intros H; by destruct Hd1]. }
  destruct (Re.search pattern content) as [m|].
  - intros [<- <-]%Return_pair_inj. split.
    + exists (msg_inserted file_path).
      split; [reflexivity|]. split; [by right; right|].
      split; intros _; reflexivity.
    + intros p Hp. unfold print, write_text. cbn [files].
      by apply lookup_insert_ne.
  - intros [<- <-]%Return_pair_inj. split; [|reflexivity].
    exists (msg_no_anchor file_path).
    split; [reflexivity|]. split; [by right; left|].
    split; [intros H; discriminate H|intros H; by destruct Hd2].
Qed.

Lemma X5_witness :
  (exists msg,
     stdout (print (msg_no_anchor (u "a.md")) (world_of (u "a.md") doc_title_only))
       = stdout (world_of (u "a.md") doc_title_only) ++ [msg] /\
     (msg = msg_present (u "a.md") \/ msg = msg_no_anchor (u "a.md") \/
      msg = msg_inserted (u "a.md")) /\
     (false = true <-> msg = msg_inserted (u "a.md"))) /\
  forall p, p <> u "a.md" ->
    files (print (msg_no_anchor (u "a.md")) (world_of (u "a.md") doc_title_only))
      !! p = files (world_of (u "a.md") doc_title_only) !! p.
Proof.
  apply (X5_one_message_other_files_kept (u "a.md") (u "a")
           (world_of (u "a.md") doc_title_only)).
  apply (add_no_anchor _ _ _ doc_title_only); by vm_compute.
Defined.

(** X6: the text written by a successful call holds no carriage
    return when the agent name holds none (the line endings of the file
    have been turned into line feeds), and it reads back as written. *)
Theorem X6_written_text_reads_back file_path agent_name w w' :
  add_knowledge_section file_path agent_name w = Return (true, w') ->
  Forall (fun c => c <> CR) agent_name ->
  exists new_content,
    files w' !! file_path = Some new_content /\
    Forall (fun c => c <> CR) new_content /\
    read_text w' file_path = Return new_content.
Proof.
  intros (content & m & Hread & _ & _ & ->)%add_true_inv Hname.
  apply read_text_Return in Hread as (raw & _ & ->).
  assert (Forall (fun c => c <> CR)
            (spliced (universal_newlines raw) (Re.match_end m) agent_name))
    as Hfree.
  { unfold spliced. apply Forall_app. split; [|apply Forall_app; split].
    - apply Forall_take, universal_newlines_no_CR.
    - by apply knowledge_section_no_CR.
    - apply Forall_drop, universal_newlines_no_CR. }
  eexists. unfold read_text, print, write_text. cbn [files].
  rewrite lookup_insert_eq. split_and!; [done..|].
  by rewrite universal_newlines_id.
Qed.

Lemma X6_witness :
  exists new_content,
    files (print (msg_inserted (u "a.md"))
             (write_text (u "a.md")
                (spliced (u "## Section" ++ [LF] ++ u "Body" ++ [LF]) 11 (u "a"))
                (world_of (u "a.md")
                   (u "## Section" ++ [CR; LF] ++ u "Body" ++ [CR; LF]))))
      !! u "a.md" = Some new_content /\
    Forall (fun c => c <> CR) new_content /\
    read_text (print (msg_inserted (u "a.md"))
                 (write_text (u "a.md")
                    (spliced (u "## Section" ++ [LF] ++ u "Body" ++ [LF]) 11 (u "a"))
                    (world_of (u "a.md")
                       (u "## Section" ++ [CR; LF] ++ u "Body" ++ [CR; LF]))))
      (u "a.md") = Return new_content.
Proof.
  apply (X6_written_text_reads_back (u "a.md") (u "a")
           (world_of (u "a.md")
              (u "## Section" ++ [CR; LF] ++ u "Body" ++ [CR; LF]))).
  - apply (add_inserted _ _ _ (u "## Section" ++ [LF] ++ u "Body" ++ [LF])
             (0, 11)); by vm_compute.
  - apply (bool_decide_unpack _). by vm_compute.
Defined.

End OneCall.

(** ** The agent name and the path of a listed file *)

Section Names.

Implicit Types stem filename : str.

Lemma replace_from_skip_rest old new : forall s skip,
  length s <= skip -> replace_from skip old new s = [].
Proof.
  induction s as [|c s IH]; intros skip Hlen; [done|].
  destruct skip as [|k]; [simpl in Hlen; lia|].
  cbn [replace_from]. apply IH. simpl in Hlen. lia.
Qed.

(** An occurrence of [".md"] that starts inside [stem ++ ".md"] before
    the suffix lies in [stem] itself. *)
Lemma startswith_md_straddle c stem :
  startswith ((c :: stem) ++ u ".md") (u ".md") = true ->
  startswith (c :: stem) (u ".md") = true.
Proof.
  change (u ".md") with [46; 109; 100]%N.
  destruct stem as [|d [|e stem]]; cbn [app startswith];
    rewrite ?andb_true_iff, ?N.eqb_eq; intros H; try done.
  - destruct H as (_ & [=] & _).
  - destruct H as (_ & _ & [=] & _).
Qed.

(** X10: for a file name made of a stem without [".md"] in it and the
    suffix [".md"], the agent name the batch passes on is the stem. *)
Theorem X10_agent_name_is_stem : forall stem,
  contains (u ".md") stem = false ->
  replace (stem ++ u ".md") (u ".md") (u "") = stem.
Proof.
  unfold replace. induction stem as [|c stem IH]; intros Hno.
  - by vm_compute.
  - rewrite contains_unfold in Hno. apply orb_false_iff in Hno as [Hhere Hno].
    change ((c :: stem) ++ u ".md") with (c :: (stem ++ u ".md")).
    cbn [replace_from].
    destruct (startswith (c :: stem ++ u ".md") (u ".md")) eqn:E.
    + apply (startswith_md_straddle c stem) in E. congruence.
    + by rewrite IH.
Qed.

Lemma X10_witness :
  replace (u "vibe-mcp" ++ u ".md") (u ".md") (u "") = u "vibe-mcp".
Proof. apply (X10_agent_name_is_stem (u "vibe-mcp")). by vm_compute. Defined.

Lemma agents_dir_join filename :
  os_path_join agents_dir filename =
  if startswith filename (u "/") then filename else agents_dir ++ filename.
Proof. unfold os_path_join. by destruct (startswith filename (u "/")). Qed.

Lemma agents_dir_join_inj filename1 filename2 :
  os_path_join agents_dir filename1 = os_path_join agents_dir filename2 ->
  filename1 = filename2.
Proof.
  assert (forall a b, startswith a (u "/") = true ->
                      startswith b (u "/") = false ->
                      a <> agents_dir ++ b) as Hmixed.
  { intros a b Ha _ ->. apply startswith_inv in Ha as [r Hr].
    vm_compute in Hr. discriminate Hr. }
  rewrite !agents_dir_join.
  destruct (startswith filename1 (u "/")) eqn:E1,
           (startswith filename2 (u "/")) eqn:E2; intros H.
  - done.
  - by apply Hmixed in H.
  - symmetry in H. by apply Hmixed in H.
  - by apply app_inv_head in H.
Qed.

(** X11: two different names are never joined to the same path string,
    absolute names included; the join resolves nothing. *)
Theorem X11_paths_distinct filename1 filename2 :
  filename1 <> filename2 ->
  os_path_join agents_dir filename1 <> os_path_join agents_dir filename2.
Proof. intros Hne H. by apply Hne, agents_dir_join_inj. Qed.

Lemma X11_witness :
  os_path_join agents_dir (u "vibe-mcp.md")
    <> os_path_join agents_dir (u "/vibe-mcp.md").
Proof.
  apply (X11_paths_distinct (u "vibe-mcp.md") (u "/vibe-mcp.md")).
  intros H. vm_compute in H. discriminate H.
Defined.

End Names.

(** ** The batch driver *)

Section Batch.

Implicit Types file_path agent_name content p : str.
Implicit Types w : world.
Implicit Types names : list str.

Lemma read_text_same w w' p content :
  files w' !! p = files w !! p ->
  read_text w' p = Return content -> read_text w p = Return content.
Proof.
  intros Hsame (raw & Hraw & ->)%read_text_Return.
  apply read_text_Return. exists raw. by rewrite <- Hsame.
Qed.

Lemma settled_same_file w w' p :
  files w' !! p = files w !! p -> settled w p -> settled w' p.
Proof.
  intros Hsame Hs content Hread. by apply Hs, (read_text_same w w').
Qed.

Lemma print_settled msg w p : settled w p -> settled (print msg w) p.
Proof. by apply settled_same_file. Qed.

(** What sits at a path: a text file, something that cannot be read,
    or nothing. *)
Lemma path_cases w p :
  (exists raw, files w !! p = Some raw /\ os_path_exists w p = true) \/
  (exists e, files w !! p = None /\ blocked w !! p = Some e /\
             os_path_exists w p = true) \/
  (files w !! p = None /\ blocked w !! p = None /\
   os_path_exists w p = false).
Proof.
  unfold os_path_exists.
  destruct (files w !! p) as [raw|] eqn:Hf.
  - left. exists raw. split; [done|].
    by rewrite bool_decide_eq_true_2 by by eexists.
  - right. rewrite (bool_decide_eq_false_2 (is_Some None))
      by (by intros [? ?]). cbn [orb].
    destruct (blocked w !! p) as [e|] eqn:Hb.
    + left. exists e. by rewrite bool_decide_eq_true_2 by by eexists.
    + right. by rewrite bool_decide_eq_false_2 by (by intros [? ?]).
Qed.

Lemma add_returns file_path agent_name w raw :
  files w !! file_path = Some raw ->
  exists r w', add_knowledge_section file_path agent_name w = Return (r, w').
Proof.
  intros Hraw. unfold add_knowledge_section, read_text. rewrite Hraw.
  destruct (contains marker _); [eauto|].
  destruct (Re.search pattern _); eauto.
Qed.

(** What one call does to the world. *)
Lemma add_files file_path agent_name w r w' :
  add_knowledge_section file_path agent_name w = Return (r, w') ->
  (r = false /\ files w' = files w) \/
  (r = true /\ exists content insert_pos,
     files w' = <[file_path := spliced content insert_pos agent_name]> (files w)).
Proof.
  destruct r; intros H.
  - right. split; [done|].
    apply add_true_inv in H as (content & m & _ & _ & _ & ->).
    by exists content, (Re.match_end m).
  - left. split; [done|]. by apply add_false_inv in H.
Qed.

Lemma add_keeps_rest file_path agent_name w r w' :
  add_knowledge_section file_path agent_name w = Return (r, w') ->
  blocked w' = blocked w /\
  dom (files w') = dom (files w) /\
  length (stdout w') = S (length (stdout w)).
Proof.
  unfold add_knowledge_section.
  destruct (read_text w file_path) as [content|] eqn:Hread;
    [|intros H; discriminate H].
  apply read_text_Return in Hread as (raw & Hraw & _).
  assert (forall msg w0, length (stdout (print msg w0)) = S (length (stdout w0)))
    as Hlen by (intros msg w0; unfold print; cbn [stdout];
                rewrite length_app; simpl; lia).
  destruct (contains marker _).
  { intros [_ <-]%Return_pair_inj. by split_and!. }
  destruct (Re.search pattern _) as [m|].
  - intros [_ <-]%Return_pair_inj. split_and!; [done| |by rewrite Hlen].
    unfold print, write_text. cbn [files]. by apply dom_insert_lookup_L.
  - intros [_ <-]%Return_pair_inj. by split_and!.
Qed.

(** After a call the file it was given is settled, and a settled file
    stays settled, whichever file a call is given. *)
Lemma add_settles file_path agent_name w r w' :
  add_knowledge_section file_path agent_name w = Return (r, w') ->
  settled w' file_path.
Proof.
  unfold add_knowledge_section.
  destruct (read_text w file_path) as [content|] eqn:Hread;
    [|intros H; discriminate H].
  destruct (contains marker content) eqn:Hmarker.
  { intros [_ <-]%Return_pair_inj c Hc. left.
    apply (read_text_same w) in Hc; [congruence|done]. }
  destruct (Re.search pattern content) as [m|] eqn:Hscan.
  - intros [_ <-]%Return_pair_inj c Hc. left.
    apply read_text_Return in Hc as (new & Hnew & ->).
    unfold print, write_text in Hnew. cbn [files] in Hnew.
    rewrite lookup_insert_eq in Hnew. injection Hnew as <-.
    apply marker_after_splice.
  - intros [_ <-]%Return_pair_inj c Hc. right.
    apply (read_text_same w) in Hc; [congruence|done].
Qed.

Lemma add_keeps_settled file_path agent_name w r w' p :
  add_knowledge_section file_path agent_name w = Return (r, w') ->
  settled w p -> settled w' p.
Proof.
  intros Hadd Hp.
  destruct (add_files _ _ _ _ _ Hadd)
    as [[_ Hfiles]|[_ (content & pos & Hfiles)]].
  - apply (settled_same_file w); [by rewrite Hfiles|done].
  - destruct (decide (p = file_path)) as [->|Hne].
    + by apply (add_settles _ _ _ _ _ Hadd).
    + apply (settled_same_file w); [|done].
      by rewrite Hfiles, lookup_insert_ne.
Qed.

Lemma add_settled file_path agent_name w raw :
  files w !! file_path = Some raw ->
  settled w file_path ->
  exists msg,
    add_knowledge_section file_path agent_name w = Return (false, print msg w).
Proof.
  intros Hraw Hs.
  assert (read_text w file_path = Return (universal_newlines raw)) as Hread
    by (unfold read_text; by rewrite Hraw).
  destruct (contains marker (universal_newlines raw)) eqn:Hmarker.
  - eexists. by apply (add_present _ _ _ _ Hread).
  - destruct (Hs _ Hread) as [?|Hscan]; [congruence|].
    eexists. by apply (add_no_anchor _ _ _ _ Hread).
Qed.

(** The three ways the loop goes on at a listed name. *)
Lemma main_loop_file filename rest k w r w1 :
  os_path_exists w (os_path_join agents_dir filename) = true ->
  add_knowledge_section (os_path_join agents_dir filename)
    (replace filename (u ".md") (u "")) w = Return (r, w1) ->
  main_loop (filename :: rest) k w =
  main_loop rest (if r then S k else k) w1.
Proof. intros Hex Hadd. cbn [main_loop]. rewrite Hex, Hadd. by destruct r. Qed.

Lemma main_loop_blocked filename rest k w e :
  files w !! os_path_join agents_dir filename = None ->
  blocked w !! os_path_join agents_dir filename = Some e ->
  os_path_exists w (os_path_join agents_dir filename) = true ->
  main_loop (filename :: rest) k w = (Raise e, w).
Proof.
  intros Hf Hb Hex. cbn [main_loop]. rewrite Hex.
  by rewrite (add_raises _ _ _ Hf), Hb.
Qed.

Lemma main_loop_absent filename rest k w :
  os_path_exists w (os_path_join agents_dir filename) = false ->
  main_loop (filename :: rest) k w =
  main_loop rest k
    (print (u "⚠️ Файл не найден: " ++ os_path_join agents_dir filename) w).
Proof. intros Hex. cbn [main_loop]. by rewrite Hex. Qed.

(** What every run of the loop keeps, finished or aborted. *)
Lemma main_loop_keeps : forall names k w,
  blocked (snd (main_loop names k w)) = blocked w /\
  dom (files (snd (main_loop names k w))) = dom (files w) /\
  (forall p, settled w p -> settled (snd (main_loop names k w)) p) /\
  (forall p raw, files w !! p = Some raw -> settled w p ->
                 files (snd (main_loop names k w)) !! p = Some raw) /\
  match fst (main_loop names k w) with
  | Return n =>
      length (stdout (snd (main_loop names k w)))
        = length (stdout w) + length names /\
      k <= n <= k + length names
  | Raise _ =>
      length (stdout (snd (main_loop names k w)))
        < length (stdout w) + length names
  end.
Proof.
  induction names as [|filename rest IH]; intros k w.
  { cbn [main_loop fst snd length]. split_and!; try done; lia. }
  destruct (path_cases w (os_path_join agents_dir filename))
    as [(raw & Hf & Hex)|[(e & Hf & Hb & Hex)|(Hf & Hb & Hex)]].
  - destruct (add_returns _ (replace filename (u ".md") (u "")) w raw Hf)
      as (r & w1 & Hadd).
    rewrite (main_loop_file _ _ _ _ _ _ Hex Hadd).
    destruct (IH (if r then S k else k) w1) as (Hbl & Hdom & Hset & Hsame & Hout).
    destruct (add_keeps_rest _ _ _ _ _ Hadd) as (Hbl1 & Hdom1 & Hout1).
    split_and!.
    + congruence.
    + congruence.
    + intros p Hp. by eapply Hset, add_keeps_settled.
    + intros p raw' Hraw' Hp.
      assert (files w1 !! p = Some raw' /\ settled w1 p) as [H1 H2].
      { split; [|by eapply add_keeps_settled].
        destruct (decide (p = os_path_join agents_dir filename)) as [->|Hne].
        - destruct (add_settled _ (replace filename (u ".md") (u "")) w raw'
                      Hraw' Hp) as [msg Hmsg].
          rewrite Hmsg in Hadd. apply Return_pair_inj in Hadd as [_ <-]. done.
        - destruct (add_files _ _ _ _ _ Hadd)
            as [[_ ->]|[_ (c & pos & ->)]]; [done|].
          by rewrite lookup_insert_ne. }
      by apply Hsame.
    + destruct (fst (main_loop rest (if r then S k else k) w1));
        cbn [length]; destruct r; lia.
  - rewrite (main_loop_blocked _ _ _ _ _ Hf Hb Hex). cbn [fst snd length].
    split_and!; try done. lia.
  - rewrite (main_loop_absent _ _ _ _ Hex).
    set (w1 := print _ w).
    destruct (IH k w1) as (Hbl & Hdom & Hset & Hsame & Hout).
    assert (length (stdout w1) = S (length (stdout w))) as Hout1
      by (unfold w1, print; cbn [stdout]; rewrite length_app; simpl; lia).
    split_and!.
    + exact Hbl.
    + exact Hdom.
    + intros p Hp. by apply Hset, print_settled.
    + intros p raw' Hraw' Hp. apply Hsame; [done|by apply print_settled].
    + destruct (fst (main_loop rest k w1)); cbn [length]; lia.
Qed.




(** The same with a listed name that joins to a directory: the empty
    name gives the agents directory itself. *)
Example main_on_directory :
  main_on [u ""; u "vibe-mcp.md"] world_directory
  = (Raise IsADirectoryError, world_directory).
Proof. by vm_compute. Qed.



(** With three of the listed files there, one gets the section. *)
Example main_three_files :
  fst (main world_three_files) = Return 1 /\
  length (stdout (snd (main world_three_files))) = 13 /\
  files (snd (main world_three_files)) !! u ".claude/agents/vibe-roi.md"
    = Some doc_title_only /\
  files (snd (main world_three_files)) !! u ".claude/agents/vibe-queen.md"
    = Some (spliced doc_scenario 19 (u "vibe-queen")).
Proof. split_and!; by vm_compute. Qed.

(** X7: finished or aborted by an exception, the batch neither creates
    nor removes a file. *)
Theorem X7_main_keeps_file_set names w :
  dom (files (snd (main_on names w))) = dom (files w) /\
  blocked (snd (main_on names w)) = blocked w.
Proof.
  destruct (main_loop_keeps names 0 w) as (Hbl & Hdom & _).
  unfold main_on. by destruct (main_loop names 0 w) as [[n|e] w'].
Qed.

(** X8: a batch that finishes has printed one message for every listed
    name and the closing message, and reports a count of at most the
    number of names; a batch that an exception aborts has printed
    fewer messages than there are names, and no closing message. *)
Theorem X8_main_messages_and_count names w :
  match fst (main_on names w) with
  | Return updated_count =>
      length (stdout (snd (main_on names w)))
        = length (stdout w) + length names + 1 /\
      updated_count <= length names
  | Raise _ =>
      length (stdout (snd (main_on names w)))
        < length (stdout w) + length names
  end.
Proof.
  destruct (main_loop_keeps names 0 w) as (_ & _ & _ & _ & Hout).
  unfold main_on. destruct (main_loop names 0 w) as [[n|e] w'];
    cbn [fst snd] in *; [|done].
  unfold print. cbn [stdout]. rewrite length_app. simpl. lia.
Qed.



(** X12: a file that holds the marker, or in which the scan finds no
    anchor, is exactly as it was after the batch, finished or aborted,
    whatever the list of names. *)
Theorem X12_settled_file_untouched names w p raw :
  files w !! p = Some raw ->
  settled w p ->
  files (snd (main_on names w)) !! p = Some raw.
Proof.
  intros Hraw Hs.
  destruct (main_loop_keeps names 0 w) as (_ & _ & _ & Hsame & _).
  specialize (Hsame p raw Hraw Hs).
  unfold main_on. by destruct (main_loop names 0 w) as [[n|e] w'].
Qed.

Lemma X12_witness :
  files (snd (main_on [u ""; u "vibe-roi.md"] world_three_files))
    !! u ".claude/agents/vibe-roi.md" = Some doc_title_only.
Proof.
  apply (X12_settled_file_untouched [u ""; u "vibe-roi.md"] world_three_files).
  - by vm_compute.
  - intros content Hread. right.
    assert (content = doc_title_only) as ->
      by (vm_compute in Hread; by injection Hread).
    by vm_compute.
Defined.

End Batch.
